(** * MOT17testbench: the benchmark loader of [benchmark.py]

    A shallow embedding of [benchmark.py]: the ground-truth normalizer
    [fix_gt], the annotation grouper [SequenceLoader.load_gt], the frame
    iterator [SequenceLoader.__iter__], the dataset iterator
    [DataLoader.__iter__] and [SequenceLoader.update_metrics].

    Python values are modelled as follows.
    - [int] is [Z]; [float] is the kernel's binary64 [PrimFloat.float];
      [str] is [string]; a list of strings is [list string].
    - An exception is a constructor of [exn]; a call that may raise
      returns a [result].
    - A mutable list object lives in a [heap] and is denoted by its
      location, so that two names for one list share its updates.
    - A generator is a record of where its body is suspended together
      with its live local variables; [next] on it is a function from
      that record and the ambient state to what it yields (or how it
      ends) and the new record and state.
    - The file system is a finite map from the paths of the text files
      that can be read to their text, a list of directory entries (what
      [glob] can see) and a finite map from paths to decodable images. *)

From Stdlib Require Import ZArith Floats Ascii String DecimalString DecimalPos.
From Stdlib Require Import Sorting.Permutation Sorting.Sorted Lia.
From stdpp Require Import base option list strings gmap.

Local Open Scope Z_scope.
Local Open Scope string_scope.
Local Open Scope list_scope.

(** ** Exceptions and results *)

Inductive exn : Type :=
| IOError          (* OSError and its subclasses, e.g. FileNotFoundError *)
| IndexError
| ValueError
| AttributeError
| AssertionError
| RuntimeError.

Inductive result (A : Type) : Type :=
| Ok (a : A)
| Raise (e : exn).
Arguments Ok {A} a.
Arguments Raise {A} e.

(** Sequencing: [x ← r; k] runs [k] on the value of [r], or raises what
    [r] raises. *)
#[global] Instance result_bind : MBind result := fun A B k r =>
  match r with
  | Ok a => k a
  | Raise e => Raise e
  end.
#[global] Instance result_ret : MRet result := @Ok.

Definition is_Ok {A} (r : result A) : Prop := exists a, r = Ok a.

(** [[f(x) for x in l]]: evaluation stops at the first exception. *)
Fixpoint rmap {A B} (f : A -> result B) (l : list A) : result (list B) :=
  match l with
  | [] => Ok []
  | x :: l' => y ← f x; ys ← rmap f l'; Ok (y :: ys)
  end.

(** ** Python strings *)

Module Py.

Definition chr (n : nat) : ascii := ascii_of_nat n.
Definition LF : ascii := chr 10.
Definition CR : ascii := chr 13.
Definition QUOTE : ascii := chr 34.

(** [s.split(sep)] for a one-character separator: never empty. *)
Fixpoint split (sep : ascii) (s : string) : list string :=
  match s with
  | EmptyString => [EmptyString]
  | String c s' =>
      if Ascii.eqb c sep then EmptyString :: split sep s'
      else match split sep s' with
           | [] => [String c EmptyString]
           | f :: fs => String c f :: fs
           end
  end.

(** [sep.join(l)] *)
Fixpoint join (sep : string) (l : list string) : string :=
  match l with
  | [] => ""
  | [f] => f
  | f :: l' => f +:+ sep +:+ join sep l'
  end.

(** [l[i]] for a non-negative index. *)
Definition index {A} (l : list A) (i : nat) : result A :=
  match l !! i with
  | Some x => Ok x
  | None => Raise IndexError
  end.

Fixpoint rev_string (s : string) : string :=
  match s with
  | EmptyString => EmptyString
  | String c s' => rev_string s' +:+ String c EmptyString
  end.

Fixpoint drop_string (n : nat) (s : string) : string :=
  match n, s with
  | O, _ => s
  | S n', EmptyString => EmptyString
  | S n', String _ s' => drop_string n' s'
  end.

(** [s[0:-n]] (and [s[:-n]]) for [n > 0]: all but the last [n] characters. *)
Definition drop_last (n : nat) (s : string) : string :=
  String.substring 0 (String.length s - n) s.

(** [sub in s] *)
Fixpoint contains (sub s : string) : bool :=
  String.prefix sub s ||
  match s with
  | EmptyString => false
  | String _ s' => contains sub s'
  end.

(** Whitespace as [str.strip], [int] and [float] see it (ASCII). *)
Definition is_space (c : ascii) : bool :=
  let n := nat_of_ascii c in
  ((9 <=? n) && (n <=? 13) || (n =? 32) || ((28 <=? n) && (n <=? 31)))%nat.

Fixpoint lstrip (s : string) : string :=
  match s with
  | String c s' => if is_space c then lstrip s' else s
  | EmptyString => EmptyString
  end.

Definition strip (s : string) : string :=
  rev_string (lstrip (rev_string (lstrip s))).

Definition digit (c : ascii) : option Z :=
  let n := nat_of_ascii c in
  if ((48 <=? n) && (n <=? 57))%nat then Some (Z.of_nat (n - 48)) else None.

(** A [digitpart]: digits with single underscores between them. Returns the
    value read so far, the number of digits read and what is left. *)
Fixpoint digitpart (acc : Z) (count : nat) (s : string) : Z * nat * string :=
  match s with
  | String c s' =>
      match digit c with
      | Some d => digitpart (10 * acc + d) (S count) s'
      | None =>
          if Ascii.eqb c "_" then
            match count, s' with
            | S _, String c' _ =>
                match digit c' with
                | Some _ => digitpart acc count s'
                | None => (acc, count, s)
                end
            | _, _ => (acc, count, s)
            end
          else (acc, count, s)
      end
  | EmptyString => (acc, count, s)
  end.

Definition sign (s : string) : bool * string :=
  match s with
  | String "-" s' => (true, s')
  | String "+" s' => (false, s')
  | _ => (false, s)
  end.

(** [int(s)] in base 10. *)
Definition int (s : string) : result Z :=
  let '(neg, body) := sign (strip s) in
  match digitpart 0 0 body with
  | (v, S _, EmptyString) => Ok (if neg then - v else v)
  | _ => Raise ValueError
  end.

(** [str(n)] for an integer. *)
Definition str (n : Z) : string := NilZero.string_of_int (Z.to_int n).

Fixpoint zeros (n : nat) : string :=
  match n with
  | O => ""
  | S n' => String "0" (zeros n')
  end.

(** [s.zfill(width)] for a string with no sign. *)
Definition zfill (width : nat) (s : string) : string :=
  zeros (width - String.length s) +:+ s.

(** The lines of a text as iteration over a file object (and [readlines])
    gives them: each keeps its line feed. *)
Fixpoint lines (s : string) : list string :=
  match s with
  | EmptyString => []
  | String c s' =>
      if Ascii.eqb c LF then String LF EmptyString :: lines s'
      else match lines s' with
           | [] => [String c EmptyString]
           | l :: ls => String c l :: ls
           end
  end.

(** Reading in text mode translates CR LF and a lone CR to LF
    (universal newlines). *)
Fixpoint universal_newlines (s : string) : string :=
  match s with
  | EmptyString => EmptyString
  | String c s' =>
      if Ascii.eqb c CR then
        match s' with
        | String c' s'' =>
            if Ascii.eqb c' LF then String LF (universal_newlines s'')
            else String LF (universal_newlines s')
        | EmptyString => String LF EmptyString
        end
      else String c (universal_newlines s')
  end.

(** *** [float(s)]

    The decimal literal [m * 10^e10] is rounded once, to the nearest
    binary64 number (ties to even), as CPython's correctly rounded
    conversion does. For a negative exponent the quotient is computed with
    more than 64 bits and a sticky bit, which loses nothing of the
    rounding decision. *)
Definition of_decimal (neg : bool) (m e10 : Z) : float :=
  let magnitude :=
    if (0 <=? e10)%Z then
      SF2Prim (binary_normalize prec emax (m * 10 ^ e10) 0 false)
    else
      let d := 10 ^ (- e10) in
      let s := Z.max 0 (64 + Z.log2_up d - Z.log2 m) in
      let n := m * 2 ^ s in
      let sticky := if (n mod d =? 0)%Z then 0 else 1 in
      SF2Prim (binary_normalize prec emax (2 * (n / d) + sticky) (- (s + 1)) false)
  in
  if neg then PrimFloat.opp magnitude else magnitude.

Definition lower (c : ascii) : ascii :=
  let n := nat_of_ascii c in
  if ((65 <=? n) && (n <=? 90))%nat then ascii_of_nat (n + 32) else c.

Fixpoint lower_string (s : string) : string :=
  match s with
  | EmptyString => EmptyString
  | String c s' => String (lower c) (lower_string s')
  end.

Definition exponent (s : string) : option (Z * string) :=
  match s with
  | String c s' =>
      if Ascii.eqb (lower c) "e" then
        let '(eneg, body) := sign s' in
        match digitpart 0 0 body with
        | (v, S _, rest) => Some (if eneg then - v else v, rest)
        | _ => None
        end
      else Some (0, s)
  | EmptyString => Some (0, s)
  end.

Definition float (s : string) : result float :=
  let '(neg, body) := sign (strip s) in
  let word := lower_string body in
  if String.eqb word "inf" || String.eqb word "infinity" then
    Ok (if neg then neg_infinity else infinity)
  else if String.eqb word "nan" then Ok nan
  else
    let '(ip, ni, r1) := digitpart 0 0 body in
    let '(m, nf, r2) :=
      match r1 with
      | String "." r => digitpart ip 0 r
      | _ => (ip, O, r1)
      end in
    match (ni + nf)%nat, exponent r2 with
    | S _, Some (e, EmptyString) => Ok (of_decimal neg m (e - Z.of_nat nf))
    | _, _ => Raise ValueError
    end.

End Py.




(** ** The file system *)

(** A decoded image: [cv2.imread] gives an array of pixel values, which
    this program only passes on. *)
Inductive image : Type := Image (pixels : list Z).

(** The text files are the files that [open] opens and whose bytes decode
    to text, each with its text; a file that is there but cannot be
    decoded is not among them. *)
Record FS : Type := mkFS {
  files : gmap string string;     (* text files, by path *)
  entries : list string;          (* directory entries, as [glob] lists them *)
  images : gmap string image      (* files that [cv2.imread] can decode *)
}.

(** [open(path, 'r')] followed by reading: the text of the file, or
    [IOError] (FileNotFoundError) when there is none. *)
Definition open_r (fs : FS) (path : string) : result string :=
  match files fs !! path with
  | Some raw => Ok (Py.universal_newlines raw)
  | None => Raise IOError
  end.

(** [open(path, 'w')] followed by writing [content] (POSIX: a line feed is
    written as it is). *)
Definition open_w (fs : FS) (path : string) (content : string) : FS :=
  mkFS (<[path := content]> (files fs)) (entries fs) (images fs).

(** [cv2.imread(path, 1)]: [None] when the file is missing or not an image. *)
Definition imread (fs : FS) (path : string) : option image := images fs !! path.

(** ** The [csv] module, default (excel) dialect *)

Fixpoint string_forallb (p : ascii -> bool) (s : string) : bool :=
  match s with
  | EmptyString => true
  | String c s' => p c && string_forallb p s'
  end.

(** The reader is modelled on texts with no quote character, where a
    record is one line and its fields are what stands between commas; an
    empty line is the empty record. *)
Definition quote_free (s : string) : bool :=
  string_forallb (fun c => negb (Ascii.eqb c Py.QUOTE)) s.

Fixpoint chomp (line : string) : string :=
  match line with
  | EmptyString => EmptyString
  | String c EmptyString => if Ascii.eqb c Py.LF then EmptyString else line
  | String c s' => String c (chomp s')
  end.

Definition csv_record (line : string) : list string :=
  match chomp line with
  | EmptyString => []
  | body => Py.split "," body
  end.

Definition csv_reader (text : string) : list (list string) :=
  map csv_record (Py.lines text).

(** The writer quotes a field that holds the delimiter, the quote
    character or a character of the line terminator (QUOTE_MINIMAL),
    doubling the quotes inside; a record made of one empty field is written
    as an empty quoted field; every record ends with CR LF. *)
Definition special (c : ascii) : bool :=
  Ascii.eqb c "," || Ascii.eqb c Py.QUOTE || Ascii.eqb c Py.CR || Ascii.eqb c Py.LF.

Fixpoint double_quotes (s : string) : string :=
  match s with
  | EmptyString => EmptyString
  | String c s' =>
      if Ascii.eqb c Py.QUOTE then String c (String c (double_quotes s'))
      else String c (double_quotes s')
  end.

Definition csv_field (f : string) : string :=
  if string_forallb (fun c => negb (special c)) f then f
  else String Py.QUOTE (double_quotes f) +:+ String Py.QUOTE EmptyString.

Definition CRLF : string := String Py.CR (String Py.LF EmptyString).

Definition csv_writerow (row : list string) : string :=
  match row with
  | [EmptyString] => String Py.QUOTE (String Py.QUOTE CRLF)
  | _ => Py.join "," (map csv_field row) +:+ CRLF
  end.

Fixpoint csv_writerows (rows : list (list string)) : string :=
  match rows with
  | [] => EmptyString
  | row :: rows' => csv_writerow row +:+ csv_writerows rows'
  end.

(** ** [sorted(iterable, key=...)]

    The keys are computed first, one call per element in order, so the
    first failing key raises before anything is moved. The sort is stable
    (a guarantee of the language); among the stable sorts, which all
    compute the same list, insertion is the one written here. *)
Fixpoint insert_by_key {A} (x : Z * A) (l : list (Z * A)) : list (Z * A) :=
  match l with
  | [] => [x]
  | y :: l' => if (x.1 <=? y.1)%Z then x :: l else y :: insert_by_key x l'
  end.

Fixpoint stable_sort {A} (l : list (Z * A)) : list (Z * A) :=
  match l with
  | [] => []
  | x :: l' => insert_by_key x (stable_sort l')
  end.

Definition sorted {A} (key : A -> result Z) (l : list A) : result (list A) :=
  keys ← rmap key l;
  Ok (map snd (stable_sort (zip keys l))).

(** ** [fix_gt]: the ground-truth normalizer *)

(** [lambda row: int(row[0])] *)
Definition row_key (row : list string) : result Z :=
  f ← Py.index row 0; Py.int f.

(** [filename[0:-4] + '_corrected.txt'] *)
Definition corrected_name (filename : string) : string :=
  Py.drop_last 4 filename +:+ "_corrected.txt".

Definition fix_gt (fs : FS) (filename : string) : result FS :=
  fid ← open_r fs filename;
  sorted_list ← sorted row_key (csv_reader fid);
  let out_filename := corrected_name filename in
  Ok (open_w fs out_filename (csv_writerows sorted_list)).


(** ** Mutable lists and the sequence loader object *)

(** A box [[left, top, width, height]] or a midpoint [[x, y]]. *)
Definition item : Type := list float.

(** A location is an index into the heap, which holds the elements of
    every list object made so far. *)
Abbreviation loc := nat (only parsing).
Abbreviation heap := (list (list item)) (only parsing).

(** [l = []]: a new list object. *)
Definition heap_alloc (h : heap) : loc * heap := (length h, h ++ [[]]).
(** [l.append(x)] *)
Definition heap_append (l : loc) (x : item) (h : heap) : heap :=
  alter (fun v => v ++ [x]) l h.
(** [del l[:]] *)
Definition heap_clear (l : loc) (h : heap) : heap := <[l := []]> h.
(** The elements of [l] now: what a caller sees who reads or copies it. *)
Definition heap_read (h : heap) (l : loc) : list item := default [] (h !! l).

Definition matrix : Type := list (list float).

(** Modelled from the spec: the accumulator of the metrics library, which
    is no part of the sources, is kept as the list of the calls
    [update(oids, hids, dists)] it has received. *)
Record update_call : Type := mkUpdate {
  oids : list Z;
  hids : list Z;
  dists : matrix
}.

Record SequenceLoader : Type := mkSeq {
  filepath : string;
  name : string;
  imDir : string;
  frameRate : string;
  seqLength : string;
  imWidth : string;
  imHeight : string;
  imExt : string;
  accumulator : list update_call;   (* the calls received, oldest first *)
  midpoints : loc;
  choose_midpoints : bool;
  frame : option Z                  (* unset until [__iter__] runs *)
}.

Definition set_frame (v : Z) (s : SequenceLoader) : SequenceLoader :=
  mkSeq (filepath s) (name s) (imDir s) (frameRate s) (seqLength s) (imWidth s)
        (imHeight s) (imExt s) (accumulator s) (midpoints s) (choose_midpoints s)
        (Some v).

Definition set_midpoints (l : loc) (s : SequenceLoader) : SequenceLoader :=
  mkSeq (filepath s) (name s) (imDir s) (frameRate s) (seqLength s) (imWidth s)
        (imHeight s) (imExt s) (accumulator s) l (choose_midpoints s) (frame s).


(** [info[i].split('=')[1][:-1]] *)
Definition manifest_field (info : list string) (i : nat) : result string :=
  line ← Py.index info i;
  v ← Py.index (Py.split "=" line) 1;
  Ok (Py.drop_last 1 v).

Record manifest : Type := mkManifest {
  m_name : string; m_imDir : string; m_frameRate : string; m_seqLength : string;
  m_imWidth : string; m_imHeight : string; m_imExt : string
}.

Definition parse_manifest (fid : string) : result manifest :=
  let info := Py.lines fid in
  a1 ← manifest_field info 1;
  a2 ← manifest_field info 2;
  a3 ← manifest_field info 3;
  a4 ← manifest_field info 4;
  a5 ← manifest_field info 5;
  a6 ← manifest_field info 6;
  a7 ← manifest_field info 7;
  Ok (mkManifest a1 a2 a3 a4 a5 a6 a7).

(** [SequenceLoader.__init__] *)
Definition SequenceLoader_init (fs : FS) (h : heap) (path : string) (mid : bool)
  : result (SequenceLoader * heap) :=
  fid ← open_r fs (path +:+ "/seqinfo.ini");
  m ← parse_manifest fid;
  let '(l, h') := heap_alloc h in
  Ok (mkSeq path (m_name m) (m_imDir m) (m_frameRate m) (m_seqLength m)
            (m_imWidth m) (m_imHeight m) (m_imExt m) [] l mid None, h').

(** The state a method of a sequence loader runs in. *)
Record state : Type := mkState {
  fs : FS;
  hp : heap;
  self : SequenceLoader
}.

Definition with_fs (f : FS) (σ : state) : state := mkState f (hp σ) (self σ).
Definition with_hp (h : heap) (σ : state) : state := mkState (fs σ) h (self σ).
Definition with_self (s : SequenceLoader) (σ : state) : state := mkState (fs σ) (hp σ) s.

(** ** Generators *)

Inductive pulled (A : Type) : Type :=
| Yield (a : A)
| StopIteration
| Throw (e : exn).
Arguments Yield {A} a.
Arguments StopIteration {A}.
Arguments Throw {A} e.

(** ** [SequenceLoader.load_gt]: the annotation grouper *)

(** [float(box[x])] *)
Definition field (box : list string) (x : nat) : result float :=
  f ← Py.index box x; Py.float f.

(** [[float(box[x]) for x in range(2, 6)]] *)
Definition box_of (box : list string) : result item :=
  rmap (field box) [2; 3; 4; 5]%nat.

(** [[float(box[2]) + float(box[4]) / 2, float(box[3]) + float(box[5]) / 2]] *)
Definition midpoint_of (box : list string) : result item :=
  b2 ← field box 2;
  b4 ← field box 4;
  b3 ← field box 3;
  b5 ← field box 5;
  Ok [(b2 + b4 / 2)%float; (b3 + b5 / 2)%float].

(** Where the body of [load_gt] is suspended, with its live variables. *)
Inductive gt_gen : Type :=
| GtCreated
| GtAtLoopYield (boxes midpoints : loc) (box : list string) (rest : list string)
| GtAtFinalYield
| GtFinished.

(** The two [append] calls that end the loop body. *)
Definition append_row (box : list string) (boxes mids : loc) (σ : state)
  : result unit * state :=
  match box_of box with
  | Raise e => (Raise e, σ)
  | Ok b =>
      let σ1 := with_hp (heap_append boxes b (hp σ)) σ in
      match midpoint_of box with
      | Raise e => (Raise e, σ1)
      | Ok m => (Ok (), with_hp (heap_append mids m (hp σ1)) σ1)
      end
  end.

(** [for line in fid: ...] from the top of the loop body, over the lines
    not read yet, up to the next [yield]. *)
Fixpoint load_gt_loop (lines : list string) (boxes mids : loc) (σ : state)
  : pulled loc * gt_gen * state :=
  match lines with
  | [] => (Yield boxes, GtAtFinalYield, σ)
  | line :: rest =>
      let box := Py.split "," line in
      match (n ← row_key box;
             cur ← match frame (self σ) with
                   | Some c => Ok c
                   | None => Raise AttributeError
                   end;
             Ok (n, cur)) with
      | Raise e => (Throw e, GtFinished, σ)
      | Ok (n, cur) =>
          if negb (n =? cur)%Z then
            let σ1 := with_self (set_midpoints mids (set_frame (cur + 1) (self σ))) σ in
            (Yield (if choose_midpoints (self σ) then mids else boxes),
             GtAtLoopYield boxes mids box rest, σ1)
          else
            match append_row box boxes mids σ with
            | (Raise e, σ') => (Throw e, GtFinished, σ')
            | (Ok _, σ') => load_gt_loop rest boxes mids σ'
            end
      end
  end.

(** The file [load_gt] reads: the normalized ground truth of a training
    sequence (written by [fix_gt] first), else the detections. *)
Definition gt_open (σ : state) : result string * state :=
  let path := filepath (self σ) in
  if Py.contains "train" path then
    match fix_gt (fs σ) (path +:+ "/gt/gt.txt") with
    | Raise e => (Raise e, σ)
    | Ok fs' => (open_r fs' (path +:+ "/gt/gt_corrected.txt"), with_fs fs' σ)
    end
  else (open_r (fs σ) (path +:+ "/det/det.txt"), σ).

(** [next(generator)] on a generator made by [load_gt]. *)
Definition load_gt_next (g : gt_gen) (σ : state) : pulled loc * gt_gen * state :=
  match g with
  | GtCreated =>
      match gt_open σ with
      | (Raise e, σ') => (Throw e, GtFinished, σ')
      | (Ok fid, σ') =>
          let '(boxes, h1) := heap_alloc (hp σ') in
          let '(mids, h2) := heap_alloc h1 in
          load_gt_loop (Py.lines fid) boxes mids (with_hp h2 σ')
      end
  | GtAtLoopYield boxes mids box rest =>
      let h1 := heap_clear boxes (hp σ) in
      let h2 := heap_clear mids h1 in
      let h3 := heap_clear (midpoints (self σ)) h2 in
      match append_row box boxes mids (with_hp h3 σ) with
      | (Raise e, σ') => (Throw e, GtFinished, σ')
      | (Ok _, σ') => load_gt_loop rest boxes mids σ'
      end
  | GtAtFinalYield => (StopIteration, GtFinished, σ)
  | GtFinished => (StopIteration, GtFinished, σ)
  end.

(** ** [SequenceLoader.__iter__]: the frame iterator *)

(** [range(a, b)] *)
Definition range (a b : Z) : list Z :=
  map (fun i => a + Z.of_nat i) (seq 0 (Z.to_nat (b - a))).

(** [self.filepath + '/' + self.imDir + '/' + str(frame).zfill(6) + self.imExt] *)
Definition image_path (s : SequenceLoader) (frame : Z) : string :=
  let frame_string := Py.zfill 6 (Py.str frame) in
  filepath s +:+ "/" +:+ imDir s +:+ "/" +:+ frame_string +:+ imExt s.

Inductive seq_gen : Type :=
| SqCreated
| SqAtYield (generator : gt_gen) (frames : list Z)
| SqFinished.

(** One turn of [for frame in range(...)], over the frames not visited
    yet. A [StopIteration] that [next(generator)] lets escape inside a
    generator body surfaces as [RuntimeError] (PEP 479). *)
Definition seq_loop (frames : list Z) (generator : gt_gen) (σ : state)
  : pulled (image * loc) * seq_gen * state :=
  match frames with
  | [] => (StopIteration, SqFinished, σ)
  | frame :: rest =>
      let img_filename := image_path (self σ) frame in
      match imread (fs σ) img_filename with
      | None => (StopIteration, SqFinished, σ)
      | Some img =>
          match load_gt_next generator σ with
          | (Yield g, generator', σ') => (Yield (img, g), SqAtYield generator' rest, σ')
          | (StopIteration, _, σ') => (Throw RuntimeError, SqFinished, σ')
          | (Throw e, _, σ') => (Throw e, SqFinished, σ')
          end
      end
  end.

(** [next] on the generator made by [SequenceLoader.__iter__]. *)
Definition seq_next (g : seq_gen) (σ : state) : pulled (image * loc) * seq_gen * state :=
  match g with
  | SqCreated =>
      let generator := GtCreated in
      let σ1 := with_self (set_frame 1 (self σ)) σ in
      match Py.int (seqLength (self σ1)) with
      | Raise e => (Throw e, SqFinished, σ1)
      | Ok n => seq_loop (range 1 (n + 1)) generator σ1
      end
  | SqAtYield generator frames => seq_loop frames generator σ
  | SqFinished => (StopIteration, SqFinished, σ)
  end.

(** [next] on the generator made by [SequenceLoader.__next__]: the body
    of [__iter__] without [self.frame = 1]. *)
Definition SequenceLoader_next (g : seq_gen) (σ : state)
  : pulled (image * loc) * seq_gen * state :=
  match g with
  | SqCreated =>
      let generator := GtCreated in
      match Py.int (seqLength (self σ)) with
      | Raise e => (Throw e, SqFinished, σ)
      | Ok n => seq_loop (range 1 (n + 1)) generator σ
      end
  | SqAtYield generator frames => seq_loop frames generator σ
  | SqFinished => (StopIteration, SqFinished, σ)
  end.

(** ** [SequenceLoader.update_metrics] *)






(** ** [DataLoader]: the dataset iterator *)

(** [glob.glob(pattern)] for a pattern whose only magic character is the
    star, which stands for any run of characters inside one path
    component. The matches come in the order of the directory listing
    (names that start with a dot, which the star skips, are taken not to
    be listed). *)
Fixpoint glob_match (pat : string) : string -> bool :=
  match pat with
  | EmptyString => fun s => match s with EmptyString => true | _ => false end
  | String p pat' =>
      if Ascii.eqb p "*" then
        fix star (s : string) : bool :=
          glob_match pat' s ||
          match s with
          | EmptyString => false
          | String c s' => negb (Ascii.eqb c "/") && star s'
          end
      else
        fun s =>
          match s with
          | EmptyString => false
          | String c s' => Ascii.eqb p c && glob_match pat' s'
          end
  end.

Definition glob (fs : FS) (pattern : string) : list string :=
  filter (fun e => glob_match pattern e = true) (entries fs).

Record DataLoader : Type := mkLoader {
  dl_filepath : string;
  dl_choose_midpoints : bool;
  sequence : option Z              (* unset until [__iter__] runs *)
}.

Definition set_sequence (n : Z) (d : DataLoader) : DataLoader :=
  mkLoader (dl_filepath d) (dl_choose_midpoints d) (Some n).

(** The pattern [load_sequence] hands to [glob]. *)
Definition sequence_pattern (root : string) (sequence_number : Z) : string :=
  let sequence_string :=
    if (String.length (Py.str sequence_number) =? 1)%nat
    then "0" +:+ Py.str sequence_number
    else Py.str sequence_number in
  root +:+ "*/MOT16-" +:+ sequence_string.

Definition load_sequence (fs : FS) (h : heap) (d : DataLoader) (sequence_number : Z)
  : result (SequenceLoader * heap) :=
  let sequence_filepath := sequence_pattern (dl_filepath d) sequence_number in
  let data_path := Py.join "" (glob fs sequence_filepath) in
  if (String.length data_path =? 0)%nat then Raise IOError
  else SequenceLoader_init fs h data_path (dl_choose_midpoints d).

Inductive dl_gen : Type :=
| DlCreated
| DlAtYield
| DlFinished.

(** One turn of [while not error_check]: the [try] block up to its
    [yield], or the [except IOError] clause, which ends the loop. *)
Definition dl_loop (fs : FS) (h : heap) (d : DataLoader)
  : pulled SequenceLoader * dl_gen * (DataLoader * heap) :=
  match sequence d with
  | None => (Throw AttributeError, DlFinished, (d, h))
  | Some n =>
      match load_sequence fs h d n with
      | Ok (current_sequence, h') =>
          (Yield current_sequence, DlAtYield, (set_sequence (n + 1) d, h'))
      | Raise IOError => (StopIteration, DlFinished, (d, h))
      | Raise e => (Throw e, DlFinished, (d, h))
      end
  end.

(** [next] on the generator made by [DataLoader.__iter__]. *)
Definition dl_next (fs : FS) (g : dl_gen) (dh : DataLoader * heap)
  : pulled SequenceLoader * dl_gen * (DataLoader * heap) :=
  match g with
  | DlCreated => dl_loop fs dh.2 (set_sequence 1 dh.1)
  | DlAtYield => dl_loop fs dh.2 dh.1
  | DlFinished => (StopIteration, DlFinished, dh)
  end.

(** ** Consumers

    A [for] loop over a generator, keeping what each turn yields. A group
    is kept as the elements its list holds when it is yielded. [None]
    means that the loop needs more than [fuel] turns. *)

(** [[list(group) for group in generator]], from the outcome of the
    latest [next]. *)
Fixpoint gt_collect (fuel : nat) (out : pulled loc * gt_gen * state)
  : option (result (list (list item))) :=
  match out with
  | (Yield l, g, σ) =>
      match fuel with
      | O => None
      | S fuel' =>
          match gt_collect fuel' (load_gt_next g σ) with
          | Some (Ok groups) => Some (Ok (heap_read (hp σ) l :: groups))
          | r => r
          end
      end
  | (StopIteration, _, _) => Some (Ok [])
  | (Throw e, _, _) => Some (Raise e)
  end.

(** The first [k] groups of the grouper, each as its list holds it when it
    is yielded, if the grouper has that many to give; from the outcome of
    the latest [next], which is not looked at when [k] is zero. *)
Fixpoint gt_take (k : nat) (out : pulled loc * gt_gen * state)
  : option (list (list item)) :=
  match k with
  | O => Some []
  | S k' =>
      match out with
      | (Yield l, g, σ) =>
          groups ← gt_take k' (load_gt_next g σ);
          Some (heap_read (hp σ) l :: groups)
      | _ => None
      end
  end.

(** [[(img, list(group)) for img, group in sequence]] *)
Fixpoint seq_collect (fuel : nat) (out : pulled (image * loc) * seq_gen * state)
  : option (result (list (image * list item))) :=
  match out with
  | (Yield (img, l), g, σ) =>
      match fuel with
      | O => None
      | S fuel' =>
          match seq_collect fuel' (seq_next g σ) with
          | Some (Ok pairs) => Some (Ok ((img, heap_read (hp σ) l) :: pairs))
          | r => r
          end
      end
  | (StopIteration, _, _) => Some (Ok [])
  | (Throw e, _, _) => Some (Raise e)
  end.

(** [[sequence for sequence in loader]] *)
Fixpoint dl_collect (fuel : nat) (fs : FS)
    (out : pulled SequenceLoader * dl_gen * (DataLoader * heap))
  : option (result (list SequenceLoader)) :=
  match out with
  | (Yield s, g, dh) =>
      match fuel with
      | O => None
      | S fuel' =>
          match dl_collect fuel' fs (dl_next fs g dh) with
          | Some (Ok seqs) => Some (Ok (s :: seqs))
          | r => r
          end
      end
  | (StopIteration, _, _) => Some (Ok [])
  | (Throw e, _, _) => Some (Raise e)
  end.


(** * The vocabulary of the statements, and examples *)

(** Pairs of a key and an element, ordered by their keys. *)
Definition key_le {A} (x y : Z * A) : Prop := (x.1 <= y.1)%Z.

(** A pair that holds an element with its own key. *)
Definition keyed {A} (key : A -> result Z) (p : Z * A) : Prop := key p.2 = Ok p.1.

#[global] Instance exn_eq_dec : EqDecision exn.
Proof. solve_decision. Defined.

#[global] Instance result_eq_dec {A} `{EqDecision A} : EqDecision (result A).
Proof. solve_decision. Defined.

(** Every character of [s] satisfies [P]. *)
Fixpoint all_chars (P : ascii -> Prop) (s : string) : Prop :=
  match s with
  | EmptyString => True
  | String c s' => P c /\ all_chars P s'
  end.

(** A field that the writer leaves unquoted. *)
Definition plain (f : string) : Prop := all_chars (fun c => special c = false) f.

(** A record that is written as its fields between commas, and read back
    as itself. *)
Definition plain_row (r : list string) : Prop :=
  r <> [] /\ r <> [""] /\ Forall plain r.

(** A raw ground-truth file with rows for the frames 3, 1, 2, 1. *)
Definition gt_3121 : string :=
  "3,1,10,20,4,6
1,1,1,2,3,4
2,5,5,5,5,5
1,2,9,9,9,9
".

Definition fs_3121 : FS := mkFS {[ "seq/gt/gt.txt" := gt_3121 ]} [] ∅.

(** A record of the annotation file as [load_gt] reads it off a line. *)
Record row : Type := mkRow {
  r_frame : Z;      (* [int(box[0])] *)
  r_box : item;     (* what is appended to [boxes] *)
  r_mid : item      (* what is appended to [midpoints] *)
}.

(** The three things the loop body computes from a line. *)
Definition parse_line (line : string) : result row :=
  let box := Py.split "," line in
  n ← row_key box;
  b ← box_of box;
  m ← midpoint_of box;
  Ok (mkRow n b m).

(** The groups of rows that the loop of [load_gt] forms, in the order of
    their [yield]s, when it runs with the frame counter [cur] and the rows
    [pending] in its buffers: the body compares each row with the counter,
    and a row that differs closes the group and moves the counter by one. *)
Fixpoint scan (cur : Z) (pending : list row) (rows : list row) : list (list row) :=
  match rows with
  | [] => [pending]
  | r :: rest =>
      if negb (r_frame r =? cur)%Z then pending :: scan (cur + 1) [r] rest
      else scan cur (pending ++ [r]) rest
  end.

(** What the list chosen by the flag holds for a row. *)
Definition item_of (mid : bool) (r : row) : item :=
  if mid then r_mid r else r_box r.

(** What the caller is handed for each group: the list chosen by the flag
    inside the loop, and [boxes] after it. *)
Fixpoint render (mid : bool) (groups : list (list row)) : list (list item) :=
  match groups with
  | [] => []
  | [g] => [map r_box g]
  | g :: groups' => map (item_of mid) g :: render mid groups'
  end.

(** A manifest that declares [len] frames. *)
Definition seqinfo (len : string) : string :=
  "[Sequence]
name=MOT16-01
imDir=img1
frameRate=30
seqLength=" +:+ len +:+ "
imWidth=1920
imHeight=1080
imExt=.jpg
".

Definition test_dir : string := "./data/test/MOT16-01".

(** A test sequence of [n] frames declared, with detections [det] and the
    images of the frames [present]. *)
Definition test_fs (len det : string) (present : list Z) : FS :=
  mkFS {[ test_dir +:+ "/seqinfo.ini" := seqinfo len;
          test_dir +:+ "/det/det.txt" := det ]}
       ["./data/test"; test_dir]
       (list_to_map
          (map (fun k => (test_dir +:+ "/img1/" +:+ Py.zfill 6 (Py.str k) +:+ ".jpg",
                          Image [k]))
               present)).

(** The loader that [SequenceLoader(filepath=test_dir, midpoints=mid)]
    builds in that file system, with an empty heap before it. *)
Definition test_state (len det : string) (present : list Z) (mid : bool) : state :=
  mkState (test_fs len det present) [[]]
          (mkSeq test_dir "MOT16-01" "img1" "30" len "1920" "1080" ".jpg" [] 0 mid None).

(** Detections for the frames 1, 3 and 3: frame 2 has no record. *)
Definition det_gap : string :=
  "1,-1,10,20,4,6
3,-1,1,2,3,4
3,-1,5,5,5,5
".

(** Detections for the frames 1 and 2. *)
Definition det_12 : string :=
  "1,-1,10,20,4,6
2,-1,1,2,3,4
".

(** A suspended generator whose two buffers are distinct lists of the
    heap. This holds of every generator that [load_gt_next] returns. *)
Definition gen_wf (g : gt_gen) (σ : state) : Prop :=
  match g with
  | GtAtLoopYield b m _ _ => b <> m /\ is_Some (hp σ !! b) /\ is_Some (hp σ !! m)
  | _ => True
  end.

(** C10 as it is stated: after the next pull, the list handed out before
    (and [self.midpoints]) is empty. *)
Definition prior_group_emptied (σ : state) : Prop :=
  forall g gen1 σ1 g2 gen2 σ2,
    load_gt_next GtCreated σ = (Yield g, gen1, σ1) ->
    load_gt_next gen1 σ1 = (Yield g2, gen2, σ2) ->
    g = midpoints (self σ1) /\
    heap_read (hp σ2) g = [] /\
    heap_read (hp σ2) (midpoints (self σ2)) = [].

(** Frames 1 and 2 with the midpoint flag on, the frame counter at 1. *)
Definition mid_start : state :=
  with_self (set_frame 1 (self (test_state "2" det_12 [] true)))
            (test_state "2" det_12 [] true).
Definition pull1 : pulled nat * gt_gen * state := load_gt_next GtCreated mid_start.
Definition pull2 : pulled nat * gt_gen * state := load_gt_next pull1.1.2 pull1.2.

(** What [load_gt] never changes: the images on disk and the fields of the
    loader that name them. *)
Definition same_sequence (σ σ' : state) : Prop :=
  images (fs σ') = images (fs σ) /\
  filepath (self σ') = filepath (self σ) /\
  imDir (self σ') = imDir (self σ) /\
  imExt (self σ') = imExt (self σ).


(** A sequence directory whose manifest can be read and has its seven
    fields. *)
Definition manifest_ok (fs : FS) (dir : string) : Prop :=
  exists raw m,
    files fs !! (dir +:+ "/seqinfo.ini") = Some raw /\
    parse_manifest (Py.universal_newlines raw) = Ok m.

(** A root with the sequences 1, 2 and 4. *)
Definition fs_124 : FS :=
  mkFS {[ "./data/test/MOT16-01/seqinfo.ini" := seqinfo "5";
          "./data/train/MOT16-02/seqinfo.ini" := seqinfo "5";
          "./data/test/MOT16-04/seqinfo.ini" := seqinfo "5" ]}
       ["./data/test"; "./data/train"; "./data/test/MOT16-01";
        "./data/train/MOT16-02"; "./data/test/MOT16-04"]
       ∅.

(** C9 as it is stated: a sequence directory that is there, with a
    manifest that cannot be opened, makes the iteration raise. *)
Definition read_failure_propagates (fs : FS) (d : DataLoader) : Prop :=
  forall dir h,
    glob fs (sequence_pattern (dl_filepath d) 1) = [dir] ->
    files fs !! (dir +:+ "/seqinfo.ini") = None ->
    exists g' dh', dl_next fs DlCreated (d, h) = (Throw IOError, g', dh').

(** The directory of sequence 1 with no manifest in it. *)
Definition fs_no_manifest : FS :=
  mkFS ∅ ["./data/test"; "./data/test/MOT16-01"] ∅.







(** Detections for frame 1 only. *)
Definition det_1 : string :=
  "1,-1,10,20,4,6
1,-1,1,2,3,4
".

(** Detections whose second record, the first of frame 2, has a width that
    is no number. *)
Definition det_bad : string :=
  "1,-1,10,20,4,6
2,-1,1,2,wide,4
".


(** The outcome of the pull that follows [k] pulls which all yield, from
    the outcome of the latest [next]. *)
Fixpoint gt_drop (k : nat) (out : pulled loc * gt_gen * state)
  : option (pulled loc * gt_gen * state) :=
  match k with
  | O => Some out
  | S k' =>
      match out with
      | (Yield _, g, σ) => gt_drop k' (load_gt_next g σ)
      | _ => None
      end
  end.

(** What the frame iterator raises when a pull of the grouper does not
    yield: the exception of the grouper, or [RuntimeError] for its
    [StopIteration]. *)
Definition surfaced (out : pulled loc) : exn :=
  match out with
  | Throw e => e
  | _ => RuntimeError
  end.

(** The loaders of the root with the sequences 1, 2 and 4, built after
    one list that existed before. *)
Definition loaders_124 : list SequenceLoader :=
  match dl_collect 2 fs_124
          (dl_next fs_124 DlCreated (mkLoader "./data/" true None, [[]])) with
  | Some (Ok seqs) => seqs
  | _ => []
  end.

(** The directory of sequence 1 with a manifest of two lines. *)
Definition fs_short_manifest : FS :=
  mkFS {[ "./data/test/MOT16-01/seqinfo.ini" := "[Sequence]
name=MOT16-01
" ]}
       ["./data/test"; "./data/test/MOT16-01"] ∅.

(** A text made of the given lines, each ended by a line feed. *)
Fixpoint unlines (ls : list string) : string :=
  match ls with
  | [] => ""
  | l :: ls' => l +:+ String Py.LF (unlines ls')
  end.

(** A line [key=value] of a manifest. *)
Definition manifest_line (key value : string) : string :=
  key +:+ String "=" value.

(** The values of a manifest in the order of its lines. *)
Definition manifest_values (m : manifest) : list string :=
  [m_name m; m_imDir m; m_frameRate m; m_seqLength m;
   m_imWidth m; m_imHeight m; m_imExt m].

(** A manifest file: a header line, then the seven values, each after its
    key, every line ended by a line feed. *)
Definition manifest_text (header : string) (keys : list string) (m : manifest) : string :=
  unlines (header :: zip_with manifest_line keys (manifest_values m)).

(** The same file with no line feed after its last line. *)
Definition manifest_text_cut (header : string) (keys : list string) (m : manifest)
  : string :=
  unlines (header :: zip_with manifest_line (take 6 keys) (take 6 (manifest_values m)))
  +:+ manifest_line (default "" (keys !! 6%nat)) (m_imExt m).

(** A key or a value that a manifest line can hold. *)
Definition manifest_word (w : string) : Prop :=
  all_chars (fun c => c <> "="%char /\ c <> Py.LF) w.

(** The manifest of the example sequences. *)
Definition manifest_5 : manifest :=
  mkManifest "MOT16-01" "img1" "30" "5" "1920" "1080" ".jpg".

Definition manifest_keys : list string :=
  ["name"; "imDir"; "frameRate"; "seqLength"; "imWidth"; "imHeight"; "imExt"].

(** A raw ground-truth file with an empty line after its first row. *)
Definition gt_blank : string :=
  "1,1,10,20,4,6

2,1,1,2,3,4
".

(** A raw ground-truth file that is sorted already. *)
Definition gt_sorted : string :=
  "1,1,10,20,4,6
1,2,9,9,9,9
2,1,1,2,3,4
".

(** A training sequence with the raw ground truth [gt]. *)
Definition train_dir : string := "./data/train/MOT16-02".

Definition train_state (gt : string) : state :=
  mkState (mkFS {[ train_dir +:+ "/gt/gt.txt" := gt ]} ["./data/train"; train_dir] ∅)
          [[]]
          (mkSeq train_dir "MOT16-02" "img1" "30" "3" "1920" "1080" ".jpg" [] 0 false
                 (Some 1)).

(** Two directories for the sequence number 2, each with its manifest. *)
Definition fs_two_matches : FS :=
  mkFS {[ "./data/test/MOT16-01/seqinfo.ini" := seqinfo "5";
          "./data/test/MOT16-02/seqinfo.ini" := seqinfo "5";
          "./data/train/MOT16-02/seqinfo.ini" := seqinfo "5" ]}
       ["./data/test"; "./data/train"; "./data/test/MOT16-01";
        "./data/test/MOT16-02"; "./data/train/MOT16-02"]
       ∅.




(** * Properties *)

(** ** The stable sort *)

Section StableSort.
Context {A : Type}.
Implicit Types (x : Z * A) (l : list (Z * A)) (k : Z).

Lemma insert_by_key_perm x l : insert_by_key x l ≡ₚ x :: l.
Proof.
  induction l as [|y l IH]; simpl; [done|].
  destruct (x.1 <=? y.1)%Z; [done|].
  rewrite IH. apply Permutation_swap.
Qed.

Lemma stable_sort_perm l : stable_sort l ≡ₚ l.
Proof.
  induction l as [|x l IH]; simpl; [done|].
  by rewrite insert_by_key_perm, IH.
Qed.

Lemma insert_by_key_sorted x l :
  StronglySorted key_le l -> StronglySorted key_le (insert_by_key x l).
Proof.
  induction 1 as [|y l Hl IH Hy]; simpl.
  - repeat constructor.
  - destruct (Z.leb_spec x.1 y.1) as [Hxy|Hxy].
    + constructor; [by constructor|].
      constructor; [done|].
      eapply Forall_impl; [exact Hy|]. unfold key_le. intros; lia.
    + constructor; [done|].
      rewrite insert_by_key_perm. constructor; [|done].
      unfold key_le; lia.
Qed.

Lemma stable_sort_sorted l : StronglySorted key_le (stable_sort l).
Proof.
  induction l; simpl; [constructor|by apply insert_by_key_sorted].
Qed.

(** Stability: the elements of any one key keep their order. *)
Lemma insert_by_key_filter k x l :
  StronglySorted key_le l ->
  filter (fun y : Z * A => y.1 = k) (insert_by_key x l) = filter (fun y : Z * A => y.1 = k) (x :: l).
Proof.
  induction 1 as [|y l Hl IH Hy]; simpl; [done|].
  destruct (Z.leb_spec x.1 y.1) as [Hxy|Hxy]; [done|].
  rewrite !filter_cons, IH, filter_cons.
  destruct (decide (y.1 = k)), (decide (x.1 = k)); try done; lia.
Qed.

Lemma stable_sort_filter k l :
  filter (fun y : Z * A => y.1 = k) (stable_sort l) = filter (fun y : Z * A => y.1 = k) l.
Proof.
  induction l as [|x l IH]; simpl; [done|].
  rewrite insert_by_key_filter by apply stable_sort_sorted.
  by rewrite !filter_cons, IH.
Qed.

(** A sorted list is left as it is. *)
Lemma stable_sort_id l : StronglySorted key_le l -> stable_sort l = l.
Proof.
  induction 1 as [|x l Hl IH Hx]; simpl; [done|].
  rewrite IH. destruct Hx as [|y l' Hxy _]; simpl; [done|].
  unfold key_le in Hxy. by destruct (Z.leb_spec x.1 y.1); [|lia].
Qed.
End StableSort.

Lemma bind_Ok {A B} (r : result A) (k : A -> result B) (b : B) :
  (r ≫= k) = Ok b <-> exists a, r = Ok a /\ k a = Ok b.
Proof.
  destruct r as [a|e]; simpl.
  - split; [eauto|]. by intros (? & [= <-] & ?).
  - split; [done|]. by intros (? & ? & ?).
Qed.

Lemma bind_Raise {A B} (r : result A) (k : A -> result B) (e : exn) :
  (r ≫= k) = Raise e -> r = Raise e \/ exists a, r = Ok a /\ k a = Raise e.
Proof. destruct r as [a|e']; simpl; [eauto|]. intros [= ->]. by left. Qed.

(** ** [sorted] *)

Section Sorted.
Context {A : Type} (key : A -> result Z).
Implicit Types (l out : list A) (ps : list (Z * A)).

Lemma rmap_keyed l keys :
  rmap key l = Ok keys -> length keys = length l /\ Forall (keyed key) (zip keys l).
Proof.
  revert keys. induction l as [|x l IH]; intros keys; simpl.
  - by intros [= <-].
  - intros (k & Hk & (ks & Hks & [= <-])%bind_Ok)%bind_Ok.
    destruct (IH _ Hks) as [Hlen Hall]. simpl. split; [lia|].
    constructor; done.
Qed.

Lemma keyed_rmap ps : Forall (keyed key) ps -> rmap key ps.*2 = Ok ps.*1.
Proof.
  induction 1 as [|[k x] ps Hx _ IH]; csimpl; [done|].
  unfold keyed in Hx. simpl in Hx. rewrite Hx. csimpl. by rewrite IH.
Qed.

Lemma keyed_filter ps k :
  Forall (keyed key) ps ->
  filter (fun x => key x = Ok k) ps.*2 = (filter (fun p : Z * A => p.1 = k) ps).*2.
Proof.
  induction 1 as [|[k' x] ps Hx _ IH]; csimpl; [done|].
  unfold keyed in Hx. simpl in Hx. rewrite !filter_cons, IH. csimpl.
  destruct (decide (key x = Ok k)) as [Hk|Hk], (decide (k' = k)) as [Hk'|Hk'];
    try done; congruence.
Qed.

Lemma sorted_keys_sorted ps :
  StronglySorted key_le ps -> StronglySorted Z.le ps.*1.
Proof.
  induction 1 as [|p ps _ IH Hp]; csimpl; constructor; [done|].
  rewrite Forall_fmap. exact Hp.
Qed.

(** What [sorted] computes when every key is defined. *)
Lemma sorted_spec l keys :
  rmap key l = Ok keys ->
  exists ps,
    sorted key l = Ok ps.*2 /\
    Forall (keyed key) ps /\
    StronglySorted key_le ps /\
    ps.*2 ≡ₚ l /\
    forall k, filter (fun x => key x = Ok k) ps.*2 = filter (fun x => key x = Ok k) l.
Proof.
  intros Hkeys. destruct (rmap_keyed _ _ Hkeys) as [Hlen Hall].
  exists (stable_sort (zip keys l)).
  assert (Hall' : Forall (keyed key) (stable_sort (zip keys l))).
  { by rewrite stable_sort_perm. }
  split_and!.
  - unfold sorted. by rewrite Hkeys.
  - done.
  - apply stable_sort_sorted.
  - rewrite stable_sort_perm. by rewrite snd_zip by lia.
  - intros k. rewrite keyed_filter, stable_sort_filter, <-keyed_filter by done.
    by rewrite snd_zip by lia.
Qed.

(** Sorting what [sorted] returned changes nothing. *)
Lemma sorted_fixed ps :
  Forall (keyed key) ps -> StronglySorted key_le ps -> sorted key ps.*2 = Ok ps.*2.
Proof.
  intros Hall Hs. unfold sorted. rewrite keyed_rmap by done. simpl.
  by rewrite zip_fst_snd, stable_sort_id.
Qed.
End Sorted.

(** ** Strings, lines and records *)

#[local] Arguments String.append !_ _ / : simpl nomatch.

Lemma string_forallb_all p s :
  string_forallb p s = true <-> all_chars (fun c => p c = true) s.
Proof.
  induction s as [|c s IH]; simpl; [done|].
  rewrite andb_true_iff, IH. done.
Qed.

Lemma all_chars_impl (P Q : ascii -> Prop) s :
  (forall c, P c -> Q c) -> all_chars P s -> all_chars Q s.
Proof. intros HPQ. induction s; simpl; [done|]. intros [??]; split; auto. Qed.

Lemma all_chars_and (P Q : ascii -> Prop) s :
  all_chars P s -> all_chars Q s -> all_chars (fun c => P c /\ Q c) s.
Proof. induction s; simpl; [done|]. intros [??] [??]; split; auto. Qed.

Lemma all_chars_app P s t :
  all_chars P (s +:+ t) <-> all_chars P s /\ all_chars P t.
Proof. induction s as [|c s IH]; simpl; [tauto|]. rewrite IH. tauto. Qed.

Lemma string_app_assoc (s t u : string) : (s +:+ t) +:+ u = s +:+ t +:+ u.
Proof. induction s; simpl; [done|]. by f_equal. Qed.

Lemma string_app_length (s t : string) :
  String.length (s +:+ t) = (String.length s + String.length t)%nat.
Proof. induction s; simpl; [done|]. by f_equal. Qed.

Lemma eqb_neq (c d : ascii) : c <> d -> Ascii.eqb c d = false.
Proof. by intros ?%Ascii.eqb_neq. Qed.

(** *** [split] and [join] *)

Lemma split_not_nil sep s : Py.split sep s <> [].
Proof.
  destruct s as [|c s]; simpl; [done|].
  destruct (Ascii.eqb c sep); [done|]. by destruct (Py.split sep s).
Qed.

Lemma split_no_sep sep f :
  all_chars (fun c => c <> sep) f -> Py.split sep f = [f].
Proof.
  induction f as [|c f IH]; simpl; [done|]. intros [Hc Hf].
  by rewrite eqb_neq, IH.
Qed.

Lemma split_app sep f rest :
  all_chars (fun c => c <> sep) f ->
  Py.split sep (f +:+ String sep rest) = f :: Py.split sep rest.
Proof.
  induction f as [|c f IH]; simpl.
  - by rewrite Ascii.eqb_refl.
  - intros [Hc Hf]. by rewrite eqb_neq, IH.
Qed.

Lemma split_join r :
  r <> [] -> Forall (all_chars (fun c => c <> ","%char)) r ->
  Py.split "," (Py.join "," r) = r.
Proof.
  intros Hr Hall. induction Hall as [|f r Hf Hall IH]; [done|].
  destruct r as [|g r].
  - simpl. by apply split_no_sep.
  - change (Py.join "," (f :: g :: r))
      with (f +:+ String "," (Py.join "," (g :: r))).
    rewrite split_app by done. by rewrite IH.
Qed.

Lemma split_fields sep P s :
  all_chars P s ->
  Forall (all_chars (fun c => P c /\ c <> sep)) (Py.split sep s).
Proof.
  induction s as [|c s IH]; simpl.
  - by repeat constructor.
  - intros [Hc Hs]. specialize (IH Hs).
    destruct (Ascii.eqb_spec c sep) as [->|Hne].
    + by constructor.
    + destruct (Py.split sep s) as [|f fs]; [by repeat constructor|].
      inversion_clear IH. constructor; [|done]. simpl. auto.
Qed.

Lemma join_chars P r :
  P ","%char -> Forall (all_chars P) r -> all_chars P (Py.join "," r).
Proof.
  intros Hc. induction 1 as [|f r Hf Hall IH]; simpl; [done|].
  destruct r as [|g r]; [done|].
  rewrite all_chars_app. split; [done|]. simpl. auto.
Qed.

Lemma join_empty r : Py.join "," r = "" -> r = [] \/ r = [""].
Proof.
  destruct r as [|f [|g r]]; simpl; [auto|intros ->; auto|].
  destruct f; simpl; discriminate.
Qed.

(** *** Lines *)

Lemma lines_app a b :
  all_chars (fun c => c <> Py.LF) a ->
  Py.lines (a +:+ String Py.LF b) = (a +:+ String Py.LF "") :: Py.lines b.
Proof.
  induction a as [|c a IH]; simpl.
  - done.
  - intros [Hc Ha]. rewrite IH by done.
    destruct (Ascii.eqb_spec c Py.LF); done.
Qed.

Lemma chomp_app a : chomp (a +:+ String Py.LF "") = a.
Proof.
  induction a as [|c a IH]; [done|].
  simpl. rewrite IH. by destruct a.
Qed.

Lemma chomp_chars P line : all_chars P line -> all_chars P (chomp line).
Proof.
  induction line as [|c line IH]; [done|].
  intros [Hc Hl]. simpl. destruct line as [|d line].
  - destruct (Ascii.eqb c Py.LF); simpl; done.
  - split; [done|]. by apply IH.
Qed.

(** A line holds a line feed at its end only. *)
Lemma lines_chars P s :
  all_chars P s ->
  Forall (fun line => all_chars (fun c => P c /\ c <> Py.LF) (chomp line)) (Py.lines s).
Proof.
  induction s as [|c s IH]; simpl; [constructor|].
  intros [Hc Hs]. specialize (IH Hs).
  destruct (Ascii.eqb_spec c Py.LF) as [->|Hne].
  - constructor; [done|done].
  - destruct (Py.lines s) as [|l ls].
    + constructor; [|done]. simpl. by rewrite eqb_neq.
    + inversion_clear IH as [|?? Hl Hls]. constructor; [|done].
      simpl. destruct l as [|d l]; simpl.
      * by rewrite eqb_neq.
      * split; [done|]. exact Hl.
Qed.

(** *** Universal newlines *)

Lemma universal_newlines_chars_upto P n s :
  P Py.LF -> (String.length s <= n)%nat -> all_chars P s ->
  all_chars (fun c => P c /\ c <> Py.CR) (Py.universal_newlines s).
Proof.
  intros HLF. revert s. induction n as [|n IH]; intros [|c s] Hn; simpl in *;
    try done; try lia.
  intros [Hc Hs].
  destruct (Ascii.eqb_spec c Py.CR) as [->|Hne].
  - destruct s as [|d s]; simpl; [done|].
    destruct (Ascii.eqb d Py.LF); simpl.
    + split; [done|]. apply IH; [simpl in Hn; lia|]. by destruct Hs.
    + split; [done|]. apply (IH (String d s)); [lia|done].
  - simpl. split; [done|]. apply IH; [lia|done].
Qed.

Lemma universal_newlines_chars P s :
  P Py.LF -> all_chars P s ->
  all_chars (fun c => P c /\ c <> Py.CR) (Py.universal_newlines s).
Proof. intros. by eapply universal_newlines_chars_upto. Qed.

(** A text with no carriage return is read as it is, and the writer's
    line ends are read as line feeds. *)
Lemma universal_newlines_app a b :
  all_chars (fun c => c <> Py.CR) a ->
  Py.universal_newlines (a +:+ CRLF +:+ b)
  = a +:+ String Py.LF (Py.universal_newlines b).
Proof.
  induction a as [|c a IH]; simpl; [done|].
  intros [Hc Ha]. rewrite eqb_neq by done. f_equal. by apply IH.
Qed.

(** ** Reading back what the writer wrote *)

Lemma special_false c :
  special c = false <-> c <> ","%char /\ c <> Py.QUOTE /\ c <> Py.CR /\ c <> Py.LF.
Proof.
  unfold special. rewrite !orb_false_iff, <-!Ascii.eqb_neq. tauto.
Qed.

Lemma csv_field_plain f : plain f -> csv_field f = f.
Proof.
  intros Hf. unfold csv_field.
  replace (string_forallb _ f) with true; [done|].
  symmetry. apply string_forallb_all.
  eapply all_chars_impl; [|exact Hf]. by intros c ->.
Qed.

Lemma csv_writerow_plain r :
  plain_row r -> csv_writerow r = Py.join "," r +:+ CRLF.
Proof.
  intros (_ & Hr & Hall). unfold csv_writerow.
  replace (map csv_field r) with r.
  - destruct r as [|[|] [|]]; done.
  - clear Hr. induction Hall as [|f r Hf _ IH]; simpl; [done|].
    by rewrite csv_field_plain, <-IH.
Qed.

Lemma csv_record_written r :
  plain_row r -> csv_record (Py.join "," r +:+ String Py.LF "") = r.
Proof.
  intros (Hnil & Hone & Hall). unfold csv_record. rewrite chomp_app.
  destruct (Py.join "," r) eqn:Hj.
  - by destruct (join_empty _ Hj).
  - rewrite <-Hj. apply split_join; [done|].
    eapply Forall_impl; [exact Hall|]. intros f Hf.
    eapply all_chars_impl; [|exact Hf]. intros c Hc%special_false. tauto.
Qed.

Lemma csv_roundtrip rows :
  Forall plain_row rows ->
  csv_reader (Py.universal_newlines (csv_writerows rows)) = rows.
Proof.
  induction 1 as [|r rows Hr _ IH]; [done|].
  assert (Hj : all_chars (fun c => c <> Py.CR /\ c <> Py.LF) (Py.join "," r)).
  { apply join_chars; [done|]. destruct Hr as (_ & _ & Hall).
    eapply Forall_impl; [exact Hall|]. intros f Hf.
    eapply all_chars_impl; [|exact Hf]. intros c Hc%special_false. tauto. }
  simpl. rewrite csv_writerow_plain, string_app_assoc by done.
  rewrite universal_newlines_app
    by (eapply all_chars_impl; [|exact Hj]; simpl; tauto).
  unfold csv_reader in *. rewrite lines_app
    by (eapply all_chars_impl; [|exact Hj]; simpl; tauto).
  simpl. by rewrite csv_record_written, IH.
Qed.

(** What the reader gives on a text with no quote character is made of
    plain fields. *)
Lemma csv_reader_plain raw :
  quote_free raw = true ->
  Forall (Forall plain) (csv_reader (Py.universal_newlines raw)).
Proof.
  intros Hq%string_forallb_all.
  assert (Hq' : all_chars (fun c => c <> Py.QUOTE) raw).
  { eapply all_chars_impl; [|exact Hq]. simpl. intros c Hc ->. done. }
  pose proof (universal_newlines_chars _ raw (ltac:(done) : Py.LF <> Py.QUOTE) Hq') as Hu.
  apply lines_chars in Hu. unfold csv_reader. rewrite Forall_fmap.
  eapply Forall_impl; [exact Hu|]. intros line Hline. simpl.
  unfold csv_record. pose proof (split_fields ","%char _ _ Hline) as Hsplit.
  destruct (chomp line) as [|c body]; [done|].
  eapply Forall_impl; [exact Hsplit|].
  intros f Hf. eapply all_chars_impl; [|exact Hf].
  intros d Hd. apply special_false. simpl in Hd. tauto.
Qed.

Lemma row_key_plain r k : row_key r = Ok k -> r <> [] /\ r <> [""].
Proof. destruct r as [|[|] [|]]; done. Qed.

(** ** C3 and C4: the normalizer *)

Lemma prefix_length n s :
  (n <= String.length s)%nat -> String.length (String.substring 0 n s) = n.
Proof.
  revert s. induction n as [|n IH]; intros [|c s]; simpl; try done; try lia.
  intros Hn. rewrite IH; lia.
Qed.

(** The normalizer never writes over the file it reads. *)
Lemma corrected_name_fresh filename : corrected_name filename <> filename.
Proof.
  unfold corrected_name, Py.drop_last. intros Heq.
  apply (f_equal String.length) in Heq.
  rewrite string_app_length, prefix_length in Heq by lia.
  simpl in Heq. lia.
Qed.

Lemma prefix_app base ext :
  String.substring 0 (String.length base) (base +:+ ext) = base.
Proof.
  induction base as [|c base IH]; simpl.
  - by destruct ext.
  - by rewrite IH.
Qed.

(** The derived file stands beside the raw one: [gt.txt] gives
    [gt_corrected.txt]. *)
Lemma corrected_name_txt base :
  corrected_name (base +:+ ".txt") = base +:+ "_corrected.txt".
Proof.
  unfold corrected_name, Py.drop_last. rewrite string_app_length. simpl.
  replace (String.length base + 4 - 4)%nat with (String.length base) by lia.
  by rewrite prefix_app.
Qed.

(** What a successful run of [fix_gt] did: the rows of the raw file, each
    with its key, stably sorted and written to the derived file. *)
Lemma fix_gt_inv fs filename fs1 :
  fix_gt fs filename = Ok fs1 ->
  exists raw ps,
    files fs !! filename = Some raw /\
    sorted row_key (csv_reader (Py.universal_newlines raw)) = Ok ps.*2 /\
    Forall (keyed row_key) ps /\
    StronglySorted key_le ps /\
    ps.*2 ≡ₚ csv_reader (Py.universal_newlines raw) /\
    (forall k, filter (fun r => row_key r = Ok k) ps.*2
               = filter (fun r => row_key r = Ok k)
                   (csv_reader (Py.universal_newlines raw))) /\
    fs1 = open_w fs (corrected_name filename) (csv_writerows ps.*2).
Proof.
  unfold fix_gt, open_r. destruct (files fs !! filename) as [raw|]; [|done].
  csimpl. intros (sl & Hsorted & [= <-])%bind_Ok.
  assert (exists keys, rmap row_key (csv_reader (Py.universal_newlines raw)) = Ok keys)
    as [keys Hkeys].
  { unfold sorted in Hsorted. apply bind_Ok in Hsorted as (keys & ? & _). eauto. }
  destruct (sorted_spec row_key _ _ Hkeys) as (ps & Hps & Hk & Hs & Hperm & Hfil).
  rewrite Hps in Hsorted. injection Hsorted as <-.
  exists raw, ps. done.
Qed.

Lemma sorted_rows_plain raw ps :
  quote_free raw = true ->
  Forall (keyed row_key) ps ->
  ps.*2 ≡ₚ csv_reader (Py.universal_newlines raw) ->
  Forall plain_row ps.*2.
Proof.
  intros Hq Hk Hperm. apply Forall_fmap.
  pose proof (csv_reader_plain _ Hq) as Hplain. rewrite <-Hperm in Hplain.
  rewrite Forall_fmap in Hplain.
  eapply Forall_impl; [apply Forall_and; split; [exact Hk|exact Hplain]|].
  intros [k r] [Hkr Hr]. unfold keyed in Hkr. simpl in *.
  destruct (row_key_plain _ _ Hkr). by split_and!.
Qed.

(** C3. For a readable raw annotation file (with no quote character) whose
    rows all start with an integer frame index, [fix_gt] writes the derived
    file [corrected_name filename]; read back, that file holds the rows of
    the input, field for field, sorted by ascending integer frame index,
    and the rows of any one frame index keep their original order. *)
Theorem fix_gt_sorts_stably fs filename raw keys :
  files fs !! filename = Some raw ->
  quote_free raw = true ->
  rmap row_key (csv_reader (Py.universal_newlines raw)) = Ok keys ->
  exists out,
    fix_gt fs filename = Ok (open_w fs (corrected_name filename) out) /\
    let rows := csv_reader (Py.universal_newlines raw) in
    let rows' := csv_reader (Py.universal_newlines out) in
    rows' ≡ₚ rows /\
    (exists ks, rmap row_key rows' = Ok ks /\ StronglySorted Z.le ks) /\
    forall k, filter (fun r => row_key r = Ok k) rows'
              = filter (fun r => row_key r = Ok k) rows.
Proof.
  intros Hfile Hq Hkeys.
  destruct (sorted_spec row_key _ _ Hkeys) as (ps & Hps & Hk & Hs & Hperm & Hfil).
  exists (csv_writerows ps.*2). split.
  - unfold fix_gt, open_r. rewrite Hfile. csimpl. by rewrite Hps.
  - cbv zeta. rewrite csv_roundtrip by eauto using sorted_rows_plain.
    split_and!; [done| |done].
    exists ps.*1. split; [by apply keyed_rmap|by apply sorted_keys_sorted].
Qed.

(** Rows for the frames 3, 1, 2, 1 come out in the order 1, 1, 2, 3, the
    two rows of frame 1 as they stood. *)
Lemma fix_gt_sorts_stably_witness :
  (fs' ← fix_gt fs_3121 "seq/gt/gt.txt"; fid ← open_r fs' "seq/gt/gt_corrected.txt";
   Ok (csv_reader fid))
  = Ok [["1"; "1"; "1"; "2"; "3"; "4"]; ["1"; "2"; "9"; "9"; "9"; "9"];
        ["2"; "5"; "5"; "5"; "5"; "5"]; ["3"; "1"; "10"; "20"; "4"; "6"]] /\
  exists out,
    fix_gt fs_3121 "seq/gt/gt.txt"
    = Ok (open_w fs_3121 (corrected_name "seq/gt/gt.txt") out) /\
    let rows := csv_reader (Py.universal_newlines gt_3121) in
    let rows' := csv_reader (Py.universal_newlines out) in
    rows' ≡ₚ rows /\
    (exists ks, rmap row_key rows' = Ok ks /\ StronglySorted Z.le ks) /\
    forall k, filter (fun r => row_key r = Ok k) rows'
              = filter (fun r => row_key r = Ok k) rows.
Proof.
  split; [vm_compute; reflexivity|].
  apply (fix_gt_sorts_stably fs_3121 "seq/gt/gt.txt" gt_3121 [3; 1; 2; 1]);
    vm_compute; reflexivity.
Defined.

(** C4. [fix_gt] is idempotent. After a successful run on a file with no
    quote character, running it again on the unchanged input leaves the
    file system as it is (the derived file is written with the same
    bytes); and running it on the derived file succeeds and writes those
    same bytes again: normalize(normalize(x)) = normalize(x). *)
Theorem fix_gt_idempotent fs filename raw fs1 :
  files fs !! filename = Some raw ->
  quote_free raw = true ->
  fix_gt fs filename = Ok fs1 ->
  fix_gt fs1 filename = Ok fs1 /\
  exists fs2,
    fix_gt fs1 (corrected_name filename) = Ok fs2 /\
    files fs2 !! corrected_name (corrected_name filename)
    = files fs1 !! corrected_name filename.
Proof.
  intros Hfile Hq Hrun.
  destruct (fix_gt_inv _ _ _ Hrun)
    as (raw' & ps & Hfile' & Hsl & Hk & Hs & Hperm & _ & ->).
  assert (raw' = raw) as -> by congruence.
  split.
  - unfold fix_gt at 1, open_r. simpl.
    rewrite lookup_insert_ne by apply corrected_name_fresh.
    rewrite Hfile. csimpl. rewrite Hsl. csimpl. unfold open_w. simpl.
    by rewrite insert_insert_eq.
  - eexists. split.
    + unfold fix_gt at 1, open_r. simpl. rewrite lookup_insert_eq. csimpl.
      rewrite csv_roundtrip by eauto using sorted_rows_plain.
      rewrite sorted_fixed by done. csimpl. reflexivity.
    + simpl. by rewrite !lookup_insert_eq.
Qed.

Lemma fix_gt_idempotent_witness :
  let fs1 := open_w fs_3121 (corrected_name "seq/gt/gt.txt")
               (csv_writerows (csv_reader (Py.universal_newlines
                  "1,1,1,2,3,4
1,2,9,9,9,9
2,5,5,5,5,5
3,1,10,20,4,6
"))) in
  fix_gt fs_3121 "seq/gt/gt.txt" = Ok fs1 /\
  fix_gt fs1 "seq/gt/gt.txt" = Ok fs1 /\
  exists fs2,
    fix_gt fs1 (corrected_name "seq/gt/gt.txt") = Ok fs2 /\
    files fs2 !! corrected_name (corrected_name "seq/gt/gt.txt")
    = files fs1 !! corrected_name "seq/gt/gt.txt".
Proof.
  intros fs1.
  assert (Hrun : fix_gt fs_3121 "seq/gt/gt.txt" = Ok fs1) by (vm_compute; reflexivity).
  split; [exact Hrun|].
  apply (fix_gt_idempotent fs_3121 "seq/gt/gt.txt" gt_3121 fs1);
    [vm_compute; reflexivity|vm_compute; reflexivity|exact Hrun].
Defined.

(** ** The grouper: a big-step view of [load_gt] *)

Lemma scan_not_nil cur pending rows : scan cur pending rows <> [].
Proof.
  revert cur pending. induction rows as [|r rows IH]; intros; simpl; [done|].
  destruct (negb _); [done|apply IH].
Qed.

Lemma scan_concat cur pending rows : concat (scan cur pending rows) = pending ++ rows.
Proof.
  revert cur pending. induction rows as [|r rows IH]; intros; simpl.
  - done.
  - destruct (negb _); simpl; rewrite IH; [done|]. by rewrite <-app_assoc.
Qed.

Lemma render_cons mid g groups :
  groups <> [] -> render mid (g :: groups) = map (item_of mid) g :: render mid groups.
Proof. by destruct groups. Qed.

Lemma render_concat mid groups :
  exists k,
    concat (render mid groups)
    = map (item_of mid) (take k (concat groups)) ++ map r_box (drop k (concat groups)).
Proof.
  induction groups as [|g groups [k IH]]; [by exists 0%nat|].
  destruct groups as [|g' groups].
  - exists 0%nat. simpl. by rewrite !app_nil_r.
  - exists (length g + k)%nat. rewrite render_cons by done.
    change (concat (g :: g' :: groups)) with (g ++ concat (g' :: groups)).
    rewrite take_app_add, drop_app_add. cbn [concat]. rewrite IH.
    by rewrite map_app, <-app_assoc.
Qed.

Lemma render_concat_boxes groups :
  concat (render false groups) = map r_box (concat groups).
Proof.
  destruct (render_concat false groups) as [k ->]. simpl.
  change (item_of false) with r_box.
  by rewrite <-map_app, take_drop.
Qed.

(** *** The heap under [append] and [del] *)

Lemma heap_append_eq l x (h : heap) v :
  h !! l = Some v -> heap_append l x h !! l = Some (v ++ [x]).
Proof. intros Hl. unfold heap_append. by rewrite list_lookup_alter_eq, Hl. Qed.

Lemma heap_append_ne l l' x (h : heap) :
  l <> l' -> heap_append l x h !! l' = h !! l'.
Proof. intros. unfold heap_append. by rewrite list_lookup_alter_ne. Qed.

Lemma heap_clear_eq l (h : heap) v : h !! l = Some v -> heap_clear l h !! l = Some [].
Proof.
  intros Hl. unfold heap_clear. apply list_lookup_insert_eq.
  by eapply lookup_lt_Some.
Qed.

Lemma heap_clear_ne l l' (h : heap) : l <> l' -> heap_clear l h !! l' = h !! l'.
Proof. intros. unfold heap_clear. by rewrite list_lookup_insert_ne. Qed.

Lemma heap_read_lookup (h : heap) l v : h !! l = Some v -> heap_read h l = v.
Proof. intros Hl. unfold heap_read. by rewrite Hl. Qed.

(** *** The loop body on a well-formed line *)

Lemma parse_line_inv line r :
  parse_line line = Ok r ->
  row_key (Py.split "," line) = Ok (r_frame r) /\
  box_of (Py.split "," line) = Ok (r_box r) /\
  midpoint_of (Py.split "," line) = Ok (r_mid r).
Proof.
  unfold parse_line.
  intros (n & Hn & (b & Hb & (m & Hm & [= <-])%bind_Ok)%bind_Ok)%bind_Ok.
  done.
Qed.

Lemma append_row_ok box b m σ bx mp vb vm :
  b <> m ->
  box_of box = Ok bx -> midpoint_of box = Ok mp ->
  hp σ !! b = Some vb -> hp σ !! m = Some vm ->
  exists σ',
    append_row box b m σ = (Ok (), σ') /\
    fs σ' = fs σ /\ self σ' = self σ /\
    length (hp σ') = length (hp σ) /\
    hp σ' !! b = Some (vb ++ [bx]) /\ hp σ' !! m = Some (vm ++ [mp]).
Proof.
  intros Hbm Hbx Hmp Hb Hm. unfold append_row. rewrite Hbx, Hmp.
  eexists. split; [reflexivity|]. simpl. split_and!; try done.
  - unfold heap_append. by rewrite !length_alter.
  - rewrite heap_append_ne by done. by apply heap_append_eq.
  - apply heap_append_eq. by rewrite heap_append_ne.
Qed.

Lemma gt_collect_stop fuel g σ : gt_collect fuel (StopIteration, g, σ) = Some (Ok []).
Proof. by destruct fuel. Qed.

(** The generator hands out, group by group, what the big-step view says. *)
Lemma gt_collect_loop lines :
  forall rows fuel σ b m cur pending,
    rmap parse_line lines = Ok rows ->
    b <> m ->
    hp σ !! b = Some (map r_box pending) ->
    hp σ !! m = Some (map r_mid pending) ->
    frame (self σ) = Some cur ->
    (length lines < fuel)%nat ->
    gt_collect fuel (load_gt_loop lines b m σ)
    = Some (Ok (render (choose_midpoints (self σ)) (scan cur pending rows))).
Proof.
  induction lines as [|line lines IH];
    intros rows fuel σ b m cur pending Hrows Hbm Hb Hm Hcur Hfuel.
  - injection Hrows as <-. destruct fuel as [|fuel]; [simpl in Hfuel; lia|].
    simpl. rewrite gt_collect_stop. by rewrite (heap_read_lookup _ _ _ Hb).
  - simpl in Hrows.
    apply bind_Ok in Hrows as (r & Hr & (rows' & Hrows' & [= <-])%bind_Ok).
    destruct (parse_line_inv _ _ Hr) as (Hkey & Hbox & Hmid).
    cbn [load_gt_loop]. rewrite Hkey, Hcur. csimpl.
    destruct (negb (r_frame r =? cur)%Z) eqn:Hne.
    + destruct fuel as [|fuel]; [simpl in Hfuel; lia|].
      cbn [gt_collect load_gt_next]. cbn [midpoints set_midpoints with_self self hp].
      set (h3 := heap_clear m (heap_clear m (heap_clear b (hp σ)))).
      assert (Hb3 : h3 !! b = Some []).
      { unfold h3. rewrite !(heap_clear_ne m b) by done. by eapply heap_clear_eq. }
      assert (Hm3 : h3 !! m = Some []).
      { unfold h3. eapply heap_clear_eq, heap_clear_eq.
        by rewrite heap_clear_ne. }
      destruct (append_row_ok (Py.split "," line) b m
                  (with_hp h3 (with_self (set_midpoints m (set_frame (cur + 1) (self σ))) σ))
                  _ _ [] [] Hbm Hbox Hmid Hb3 Hm3)
        as (σ' & -> & _ & Hself & _ & Hb' & Hm').
      rewrite (IH rows' fuel σ' b m (cur + 1)%Z [r]); try done.
      * rewrite Hself. simpl.
        pose proof (scan_not_nil (cur + 1) [r] rows') as Hnn.
        destruct (scan (cur + 1) [r] rows') as [|g0 gs0]; [done|].
        do 3 f_equal. unfold item_of.
        destruct (choose_midpoints (self σ)); by apply heap_read_lookup.
      * by rewrite Hself.
      * simpl in Hfuel. lia.
    + destruct (append_row_ok (Py.split "," line) b m σ _ _ _ _ Hbm Hbox Hmid Hb Hm)
        as (σ' & -> & _ & Hself & _ & Hb' & Hm').
      rewrite (IH rows' fuel σ' b m cur (pending ++ [r])); try done.
      * by rewrite Hself.
      * by rewrite map_app.
      * by rewrite map_app.
      * by rewrite Hself.
      * simpl in Hfuel. lia.
Qed.

Lemma rmap_length {A B} (f : A -> result B) l l' :
  rmap f l = Ok l' -> length l' = length l.
Proof.
  revert l'. induction l as [|x l IH]; intros l'; simpl.
  - by intros [= <-].
  - intros (y & _ & (ys & Hys & [= <-])%bind_Ok)%bind_Ok. simpl.
    by rewrite (IH _ Hys).
Qed.

(** Opening the annotation file touches neither the loader object, nor
    the heap, nor the images. *)
Lemma gt_open_frame σ r σ' :
  gt_open σ = (r, σ') ->
  self σ' = self σ /\ hp σ' = hp σ /\ images (fs σ') = images (fs σ).
Proof.
  unfold gt_open. destruct (Py.contains _ _).
  - destruct (fix_gt _ _) as [fs'|e] eqn:Hfix; intros [= <- <-]; [|done].
    simpl. split_and!; try done.
    by destruct (fix_gt_inv _ _ _ Hfix) as (? & ? & _ & _ & _ & _ & _ & _ & ->).
  - by intros [= <- <-].
Qed.

(** The first [next]: the file is opened, the two buffers are made, and
    the loop starts on the first line. *)
Lemma load_gt_next_created σ text σ' :
  gt_open σ = (Ok text, σ') ->
  load_gt_next GtCreated σ
  = load_gt_loop (Py.lines text) (length (hp σ)) (S (length (hp σ)))
      (with_hp (hp σ ++ [[]; []]) σ').
Proof.
  intros Hopen. destruct (gt_open_frame _ _ _ Hopen) as (_ & Hhp & _).
  unfold load_gt_next, heap_alloc. rewrite Hopen.
  rewrite Hhp, length_app, <-app_assoc. simpl.
  by replace (length (hp σ) + 1)%nat with (S (length (hp σ))) by lia.
Qed.

(** C2. Whatever the annotation source, if each of its lines is a record
    (an integer frame index, four numbers after the object id), the
    grouper runs to its end, and the groups it hands out, put one after the
    other in the order of emission, hold each record of the source exactly
    once and in the order of the source: as its midpoint or its box
    according to the flag, and as its box in the last group. With the flag
    off the concatenation is the list of the boxes of all the records. *)
Theorem groups_complete σ σ' text rows cur fuel :
  gt_open σ = (Ok text, σ') ->
  frame (self σ) = Some cur ->
  rmap parse_line (Py.lines text) = Ok rows ->
  (length rows < fuel)%nat ->
  exists groups,
    gt_collect fuel (load_gt_next GtCreated σ) = Some (Ok groups) /\
    (exists k, concat groups
               = map (item_of (choose_midpoints (self σ))) (take k rows)
                 ++ map r_box (drop k rows)) /\
    (choose_midpoints (self σ) = false -> concat groups = map r_box rows).
Proof.
  intros Hopen Hcur Hrows Hfuel.
  destruct (gt_open_frame _ _ _ Hopen) as (Hself & Hhp & _).
  rewrite (load_gt_next_created _ _ _ Hopen).
  set (h := hp σ) in *.
  assert (Hb : (h ++ [[]; []]) !! length h = Some (map r_box [])).
  { by rewrite lookup_app_r, Nat.sub_diag. }
  assert (Hm : (h ++ [[]; []]) !! S (length h) = Some (map r_mid [])).
  { rewrite lookup_app_r by lia.
    by replace (S (length h) - length h)%nat with 1%nat by lia. }
  rewrite (gt_collect_loop _ rows fuel (with_hp (h ++ [[]; []]) σ')
             (length h) (S (length h)) cur [] Hrows);
    [|lia|exact Hb|exact Hm|by rewrite <-Hcur, <-Hself
     |by rewrite <-(rmap_length _ _ _ Hrows)].
  cbn [self with_hp]. rewrite Hself. eexists. split; [reflexivity|]. split.
  - destruct (render_concat (choose_midpoints (self σ)) (scan cur [] rows))
      as [k Hk].
    exists k. by rewrite Hk, scan_concat.
  - intros ->. by rewrite render_concat_boxes, scan_concat.
Qed.

(** ** Example sequences *)

Example test_state_init :
  SequenceLoader_init (test_fs "3" "" []) [] test_dir true
  = Ok (self (test_state "3" "" [] true), hp (test_state "3" "" [] true)).
Proof. vm_compute. reflexivity. Qed.

(** ** C1, C5: the groups of a frame without records, and the last group *)

(** C1 (the code departs from it). Frames 1, 3, 3 with three images: the
    group paired with the image of frame 2 is not empty but holds the
    first record of frame 3, and the second record of frame 3 comes alone
    with the image of frame 3. No empty group is handed out. *)
Theorem empty_frame_gets_next_record :
  seq_collect 4 (seq_next SqCreated (test_state "3" det_gap [1; 2; 3] false))
  = Some (Ok [(Image [1], [[10; 20; 4; 6]%float]);
              (Image [2], [[1; 2; 3; 4]%float]);
              (Image [3], [[5; 5; 5; 5]%float])]).
Proof. vm_compute. reflexivity. Qed.

(** C5 (the code departs from it). With the midpoint flag on, the group
    of frame 1 is a list of midpoints, but the last group, handed out when
    the input ends, is the list of full boxes. *)
Theorem final_flush_yields_boxes :
  gt_collect 3 (load_gt_next GtCreated
                  (with_self (set_frame 1 (self (test_state "2" det_12 [] true)))
                             (test_state "2" det_12 [] true)))
  = Some (Ok [[[12; 23]%float]; [[1; 2; 3; 4]%float]]).
Proof. vm_compute. reflexivity. Qed.

Lemma groups_complete_witness :
  exists groups,
    gt_collect 3 (load_gt_next GtCreated
                    (with_self (set_frame 1 (self (test_state "2" det_12 [] false)))
                               (test_state "2" det_12 [] false)))
    = Some (Ok groups) /\
    (exists k, concat groups
               = map (item_of false)
                     (take k [mkRow 1 [10; 20; 4; 6]%float [12; 23]%float;
                              mkRow 2 [1; 2; 3; 4]%float [2.5; 4]%float])
                 ++ map r_box
                     (drop k [mkRow 1 [10; 20; 4; 6]%float [12; 23]%float;
                              mkRow 2 [1; 2; 3; 4]%float [2.5; 4]%float])) /\
    (false = false ->
     concat groups
     = map r_box [mkRow 1 [10; 20; 4; 6]%float [12; 23]%float;
                  mkRow 2 [1; 2; 3; 4]%float [2.5; 4]%float]).
Proof.
  apply (groups_complete
           (with_self (set_frame 1 (self (test_state "2" det_12 [] false)))
                      (test_state "2" det_12 [] false))
           (with_self (set_frame 1 (self (test_state "2" det_12 [] false)))
                      (test_state "2" det_12 [] false))
           det_12 _ 1 3).
  - vm_compute. reflexivity.
  - reflexivity.
  - vm_compute. reflexivity.
  - simpl. lia.
Defined.

(** ** C10: the group that is handed out is a buffer of the generator *)

(** What one run of the loop up to a [yield] leaves: the two buffers have
    grown at their ends, and the list handed out is [boxes] at the end of
    the input, or inside the loop the list the flag chooses, which is then
    also [self.midpoints] when the flag is on. *)
Lemma load_gt_loop_yield lines :
  forall σ b m vb vm g gen1 σ1,
    b <> m ->
    hp σ !! b = Some vb -> hp σ !! m = Some vm ->
    load_gt_loop lines b m σ = (Yield g, gen1, σ1) ->
    choose_midpoints (self σ1) = choose_midpoints (self σ) /\
    (exists tb tm, hp σ1 !! b = Some (vb ++ tb) /\ hp σ1 !! m = Some (vm ++ tm)) /\
    ((gen1 = GtAtFinalYield /\ g = b) \/
     (exists box rest,
        gen1 = GtAtLoopYield b m box rest /\
        g = (if choose_midpoints (self σ) then m else b) /\
        midpoints (self σ1) = m)).
Proof.
  induction lines as [|line lines IH]; intros σ b m vb vm g gen1 σ1 Hbm Hb Hm.
  - intros [= <- <- <-]. split_and!; [done| |by left].
    exists [], []. by rewrite !app_nil_r.
  - cbn [load_gt_loop].
    destruct (row_key (Py.split "," line)) as [n|e]; [|done]. csimpl.
    destruct (frame (self σ)) as [cur|]; [|done]. csimpl.
    destruct (negb (n =? cur)%Z).
    + intros [= <- <- <-]. simpl. split_and!; [done| |right; eauto].
      exists [], []. by rewrite !app_nil_r.
    + unfold append_row.
      destruct (box_of (Py.split "," line)) as [bx|e]; [|done].
      destruct (midpoint_of (Py.split "," line)) as [mp|e]; [|done].
      intros Hloop.
      eapply (IH _ b m (vb ++ [bx]) (vm ++ [mp])) in Hloop; simpl; try done.
      * destruct Hloop as (Hc & (tb & tm & Hb1 & Hm1) & Hg).
        split_and!; [done| |done].
        exists (bx :: tb), (mp :: tm). by rewrite <-!app_assoc in Hb1, Hm1.
      * rewrite heap_append_ne by done. by apply heap_append_eq.
      * apply heap_append_eq. by rewrite heap_append_ne.
Qed.

(** One [next] that yields, as a run of the loop from some point. *)
Lemma load_gt_next_yield gen0 σ0 g gen1 σ1 :
  gen_wf gen0 σ0 ->
  load_gt_next gen0 σ0 = (Yield g, gen1, σ1) ->
  exists lines σ b m vb vm,
    b <> m /\ hp σ !! b = Some vb /\ hp σ !! m = Some vm /\
    load_gt_loop lines b m σ = (Yield g, gen1, σ1).
Proof.
  destruct gen0 as [|b m box rest| |]; simpl; try done.
  - intros _. destruct (gt_open σ0) as [[text|e] σ'] eqn:Hopen; [|done].
    intros Hloop.
    eexists _, _, (length (hp σ')), (length (hp σ' ++ [[]])), [], [].
    split_and!; [rewrite length_app; simpl; lia| | |exact Hloop]; simpl.
    + rewrite lookup_app_l by (rewrite length_app; simpl; lia).
      by rewrite lookup_app_r, Nat.sub_diag.
    + by rewrite lookup_app_r, Nat.sub_diag.
  - intros (Hbm & [vb Hb] & [vm Hm]).
    set (h3 := heap_clear (midpoints (self σ0)) (heap_clear m (heap_clear b (hp σ0)))).
    unfold append_row. destruct (box_of box) as [bx|e]; [|done].
    destruct (midpoint_of box) as [mp|e]; [|done]. simpl.
    intros Hloop.
    assert (Hlen : forall l, is_Some (hp σ0 !! l) -> is_Some (h3 !! l)).
    { intros l. rewrite !lookup_lt_is_Some. unfold h3, heap_clear.
      by rewrite !length_insert. }
    destruct (Hlen b) as [vb3 Hb3]; [by eauto|].
    destruct (Hlen m) as [vm3 Hm3]; [by eauto|].
    eexists _, _, b, m, (vb3 ++ [bx]), (vm3 ++ [mp]).
    split_and!; [done| | |exact Hloop]; simpl.
    + rewrite heap_append_ne by done. by apply heap_append_eq.
    + apply heap_append_eq. by rewrite heap_append_ne.
Qed.

Lemma load_gt_loop_ends lines :
  forall b m σ out gen1 σ1,
    load_gt_loop lines b m σ = (out, gen1, σ1) ->
    (exists g, out = Yield g) \/ gen1 = GtFinished.
Proof.
  induction lines as [|line lines IH]; intros b m σ out gen1 σ1; cbn [load_gt_loop].
  - intros [= <- <- <-]. eauto.
  - destruct (row_key _) as [n|e]; csimpl; [|intros [= <- <- <-]; by right].
    destruct (frame (self σ)) as [cur|]; csimpl; [|intros [= <- <- <-]; by right].
    destruct (negb _); [intros [= <- <- <-]; eauto|].
    destruct (append_row _ b m σ) as [[[]|e] σ']; [by apply IH|].
    intros [= <- <- <-]. by right.
Qed.

(** Every generator that [load_gt_next] returns is well formed. *)
Lemma gen_wf_next gen0 σ0 out gen1 σ1 :
  gen_wf gen0 σ0 -> load_gt_next gen0 σ0 = (out, gen1, σ1) -> gen_wf gen1 σ1.
Proof.
  intros Hwf Hnext. destruct out as [g| |e].
  - destruct (load_gt_next_yield _ _ _ _ _ Hwf Hnext)
      as (lines & σ & b & m & vb & vm & Hbm & Hb & Hm & Hloop).
    destruct (load_gt_loop_yield _ _ _ _ _ _ _ _ _ Hbm Hb Hm Hloop)
      as (_ & (tb & tm & Hb1 & Hm1) & [[-> _]|(box & rest & -> & _ & _)]);
      [done|]. simpl. eauto.
  - assert (gen1 = GtFinished) as ->; [|done].
    destruct gen0 as [|b m box rest| |]; simpl in Hnext.
    + destruct (gt_open σ0) as [[text|e] σ']; [|by injection Hnext].
      by destruct (load_gt_loop_ends _ _ _ _ _ _ _ Hnext) as [[g [=]]|].
    + destruct (append_row _ _ _ _) as [[[]|e] σ']; [|by injection Hnext].
      by destruct (load_gt_loop_ends _ _ _ _ _ _ _ Hnext) as [[g [=]]|].
    + by injection Hnext.
    + by injection Hnext.
  - assert (gen1 = GtFinished) as ->; [|done].
    destruct gen0 as [|b m box rest| |]; simpl in Hnext.
    + destruct (gt_open σ0) as [[text|e'] σ']; [|by injection Hnext].
      by destruct (load_gt_loop_ends _ _ _ _ _ _ _ Hnext) as [[g [=]]|].
    + destruct (append_row _ _ _ _) as [[[]|e'] σ']; [|by injection Hnext].
      by destruct (load_gt_loop_ends _ _ _ _ _ _ _ Hnext) as [[g [=]]|].
    + by injection Hnext.
    + by injection Hnext.
Qed.

(** C10, counterexample: once the group of frame 2 has been pulled, the
    list handed out for frame 1 holds the midpoint of frame 2's record. *)
Lemma prior_group_not_emptied : ~ prior_group_emptied mid_start.
Proof.
  intros H.
  edestruct H as (_ & Hempty & _);
    [vm_compute; reflexivity|vm_compute; reflexivity|].
  vm_compute in Hempty. discriminate.
Qed.

(** C10, amended. Take two pulls in a row that both yield. The first
    yield stands inside the loop; the list it hands out is the buffer the
    flag chooses, which with the flag on is the very list stored in
    [self.midpoints], and with the flag off is the other buffer, [boxes].
    After the second pull that same list no longer holds the group that
    was handed out: it was cleared in place and filled again, and starts
    with the record whose frame index closed the first group. *)
Theorem next_pull_overwrites_group gen0 σ0 g gen1 σ1 g2 gen2 σ2 :
  gen_wf gen0 σ0 ->
  load_gt_next gen0 σ0 = (Yield g, gen1, σ1) ->
  load_gt_next gen1 σ1 = (Yield g2, gen2, σ2) ->
  exists b m box rest bx mp tail,
    gen1 = GtAtLoopYield b m box rest /\
    box_of box = Ok bx /\ midpoint_of box = Ok mp /\
    midpoints (self σ1) = m /\ b <> m /\
    if choose_midpoints (self σ1)
    then g = m /\ heap_read (hp σ2) g = mp :: tail
    else g = b /\ heap_read (hp σ2) g = bx :: tail.
Proof.
  intros Hwf Hpull1 Hpull2.
  destruct (load_gt_next_yield _ _ _ _ _ Hwf Hpull1)
    as (lines & σ & b & m & vb & vm & Hbm & Hb & Hm & Hloop).
  destruct (load_gt_loop_yield _ _ _ _ _ _ _ _ _ Hbm Hb Hm Hloop)
    as (Hflag & (tb & tm & Hb1 & Hm1) & [[-> ->]|(box & rest & -> & -> & Hmid)]);
    [done|].
  simpl in Hpull2. rewrite Hmid in Hpull2.
  set (h3 := heap_clear m (heap_clear m (heap_clear b (hp σ1)))) in Hpull2.
  assert (Hb3 : h3 !! b = Some []).
  { unfold h3. rewrite !(heap_clear_ne m b) by done. by eapply heap_clear_eq. }
  assert (Hm3 : h3 !! m = Some []).
  { unfold h3. eapply heap_clear_eq, heap_clear_eq. by rewrite heap_clear_ne. }
  unfold append_row in Hpull2.
  destruct (box_of box) as [bx|e] eqn:Hbx; [|done].
  destruct (midpoint_of box) as [mp|e] eqn:Hmp; [|done].
  eapply (load_gt_loop_yield _ _ b m ([] ++ [bx]) ([] ++ [mp])) in Hpull2
    as (_ & (tb' & tm' & Hb2 & Hm2) & _); simpl; try done.
  - rewrite <-Hflag.
    destruct (choose_midpoints (self σ1)).
    + exists b, m, box, rest, bx, mp, tm'. split_and!; try done.
      by apply heap_read_lookup.
    + exists b, m, box, rest, bx, mp, tb'. split_and!; try done.
      by apply heap_read_lookup.
  - rewrite heap_append_ne by done. by apply (heap_append_eq _ _ _ []).
  - apply (heap_append_eq _ _ _ []). by rewrite heap_append_ne.
Qed.

Lemma next_pull_overwrites_group_witness :
  exists b m box rest bx mp tail,
    pull1.1.2 = GtAtLoopYield b m box rest /\
    box_of box = Ok bx /\ midpoint_of box = Ok mp /\
    midpoints (self pull1.2) = m /\ b <> m /\
    if choose_midpoints (self pull1.2)
    then 2%nat = m /\ heap_read (hp pull2.2) 2 = mp :: tail
    else 2%nat = b /\ heap_read (hp pull2.2) 2 = bx :: tail.
Proof.
  apply (next_pull_overwrites_group GtCreated mid_start 2 pull1.1.2 pull1.2
           1 pull2.1.2 pull2.2);
    [exact I|vm_compute; reflexivity|vm_compute; reflexivity].
Defined.

(** ** C6: the frame iterator stops at the first missing image *)

Lemma same_sequence_refl σ : same_sequence σ σ.
Proof. by unfold same_sequence. Qed.

Lemma same_sequence_trans σ1 σ2 σ3 :
  same_sequence σ1 σ2 -> same_sequence σ2 σ3 -> same_sequence σ1 σ3.
Proof. unfold same_sequence. intros (?&?&?&?) (?&?&?&?). split_and!; congruence. Qed.

Lemma same_sequence_imread σ σ' k :
  same_sequence σ σ' ->
  imread (fs σ') (image_path (self σ') k) = imread (fs σ) (image_path (self σ) k).
Proof.
  intros (Hi & Hf & Hd & He). unfold imread, image_path. by rewrite Hi, Hf, Hd, He.
Qed.

Lemma append_row_same box b m σ r σ' :
  append_row box b m σ = (r, σ') -> same_sequence σ σ'.
Proof.
  unfold append_row. destruct (box_of box); [|by intros [= <- <-]].
  destruct (midpoint_of box); by intros [= <- <-].
Qed.

Lemma load_gt_loop_same lines :
  forall b m σ out gen' σ',
    load_gt_loop lines b m σ = (out, gen', σ') -> same_sequence σ σ'.
Proof.
  induction lines as [|line lines IH]; intros b m σ out gen' σ'; cbn [load_gt_loop].
  - by intros [= <- <- <-].
  - destruct (row_key _) as [n|e]; csimpl; [|by intros [= <- <- <-]].
    destruct (frame (self σ)) as [cur|]; csimpl; [|by intros [= <- <- <-]].
    destruct (negb _); [by intros [= <- <- <-]|].
    destruct (append_row _ b m σ) as [[[]|e] σ1] eqn:Happ.
    + intros Hloop. eapply same_sequence_trans; [|by eapply IH].
      by eapply append_row_same.
    + intros [= <- <- <-]. by eapply append_row_same.
Qed.

Lemma load_gt_next_same gen σ out gen' σ' :
  load_gt_next gen σ = (out, gen', σ') -> same_sequence σ σ'.
Proof.
  destruct gen as [|b m box rest| |]; simpl; try by intros [= <- <- <-].
  - destruct (gt_open σ) as [[text|e] σ1] eqn:Hopen.
    + destruct (gt_open_frame _ _ _ Hopen) as (Hself & _ & Himg).
      intros Hloop%load_gt_loop_same.
      eapply same_sequence_trans; [|exact Hloop].
      unfold same_sequence. simpl. by rewrite Hself, Himg.
    + destruct (gt_open_frame _ _ _ Hopen) as (Hself & _ & Himg).
      intros [= <- <- <-]. unfold same_sequence. by rewrite Hself, Himg.
  - destruct (append_row _ _ _ _) as [[[]|e] σ1] eqn:Happ.
    + intros Hloop%load_gt_loop_same. apply append_row_same in Happ.
      eapply same_sequence_trans; [|exact Hloop].
      eapply same_sequence_trans; [|exact Happ]. by unfold same_sequence.
    + intros [= <- <- <-]. apply append_row_same in Happ.
      eapply same_sequence_trans; [|exact Happ]. by unfold same_sequence.
Qed.

Lemma range_cons a b : (a < b)%Z -> range a b = a :: range (a + 1) b.
Proof.
  intros Hab. unfold range.
  replace (Z.to_nat (b - a)) with (S (Z.to_nat (b - (a + 1)))) by lia.
  cbn [seq map]. f_equal; [lia|].
  rewrite <-seq_shift, map_map. apply map_ext. intros i. lia.
Qed.

Lemma seq_collect_stop fuel g σ : seq_collect fuel (StopIteration, g, σ) = Some (Ok []).
Proof. by destruct fuel. Qed.


Lemma render_length mid groups : length (render mid groups) = length groups.
Proof.
  induction groups as [|g groups IH]; [done|].
  destruct groups as [|g' groups]; [done|].
  rewrite render_cons by done. simpl in *. by rewrite IH.
Qed.

(** The grouper has as many groups to give as the big-step view counts,
    and gives them in that order. *)
Lemma gt_take_loop lines :
  forall rows k σ b m cur pending,
    rmap parse_line lines = Ok rows ->
    b <> m ->
    hp σ !! b = Some (map r_box pending) ->
    hp σ !! m = Some (map r_mid pending) ->
    frame (self σ) = Some cur ->
    (k <= length (scan cur pending rows))%nat ->
    gt_take k (load_gt_loop lines b m σ)
    = Some (take k (render (choose_midpoints (self σ)) (scan cur pending rows))).
Proof.
  induction lines as [|line lines IH];
    intros rows k σ b m cur pending Hrows Hbm Hb Hm Hcur Hk.
  - injection Hrows as <-. simpl in *.
    destruct k as [|[|k]]; [done| |lia]. simpl.
    by rewrite (heap_read_lookup _ _ _ Hb).
  - simpl in Hrows.
    apply bind_Ok in Hrows as (r & Hr & (rows' & Hrows' & [= <-])%bind_Ok).
    destruct (parse_line_inv _ _ Hr) as (Hkey & Hbox & Hmid).
    cbn [load_gt_loop]. rewrite Hkey, Hcur. csimpl. cbn [scan] in *.
    destruct (negb (r_frame r =? cur)%Z) eqn:Hne.
    + destruct k as [|k]; [done|].
      cbn [gt_take load_gt_next]. cbn [midpoints set_midpoints with_self self hp].
      set (h3 := heap_clear m (heap_clear m (heap_clear b (hp σ)))).
      assert (Hb3 : h3 !! b = Some []).
      { unfold h3. rewrite !(heap_clear_ne m b) by done. by eapply heap_clear_eq. }
      assert (Hm3 : h3 !! m = Some []).
      { unfold h3. eapply heap_clear_eq, heap_clear_eq.
        by rewrite heap_clear_ne. }
      destruct (append_row_ok (Py.split "," line) b m
                  (with_hp h3 (with_self (set_midpoints m (set_frame (cur + 1) (self σ))) σ))
                  _ _ [] [] Hbm Hbox Hmid Hb3 Hm3)
        as (σ' & -> & _ & Hself & _ & Hb' & Hm').
      rewrite (IH rows' k σ' b m (cur + 1)%Z [r]); try done.
      * rewrite Hself. simpl.
        pose proof (scan_not_nil (cur + 1) [r] rows') as Hnn.
        destruct (scan (cur + 1) [r] rows') as [|g0 gs0]; [done|].
        rewrite firstn_cons. do 2 f_equal. unfold item_of.
        destruct (choose_midpoints (self σ)); by apply heap_read_lookup.
      * by rewrite Hself.
      * simpl in Hk. lia.
    + destruct (append_row_ok (Py.split "," line) b m σ _ _ _ _ Hbm Hbox Hmid Hb Hm)
        as (σ' & -> & _ & Hself & _ & Hb' & Hm').
      rewrite (IH rows' k σ' b m cur (pending ++ [r])); try done.
      * by rewrite Hself.
      * by rewrite map_app.
      * by rewrite map_app.
      * by rewrite Hself.
Qed.

(** The hypothesis of C6 on the grouper, from the annotation source: when
    every line is a record, the grouper has a group for each of the first
    [k] frames as soon as the big-step view counts [k] groups. *)
Lemma gt_take_source σ σ' text rows cur k :
  gt_open σ = (Ok text, σ') ->
  frame (self σ) = Some cur ->
  rmap parse_line (Py.lines text) = Ok rows ->
  (k <= length (scan cur [] rows))%nat ->
  gt_take k (load_gt_next GtCreated σ)
  = Some (take k (render (choose_midpoints (self σ)) (scan cur [] rows))).
Proof.
  intros Hopen Hcur Hrows Hk.
  destruct (gt_open_frame _ _ _ Hopen) as (Hself & Hhp & _).
  rewrite (load_gt_next_created _ _ _ Hopen).
  set (h := hp σ) in *.
  rewrite (gt_take_loop _ rows k (with_hp (h ++ [[]; []]) σ')
             (length h) (S (length h)) cur [] Hrows);
    [by cbn [self with_hp]; rewrite Hself|lia| | |by rewrite <-Hcur, <-Hself|done].
  - cbn [hp with_hp]. by rewrite lookup_app_r, Nat.sub_diag.
  - cbn [hp with_hp]. rewrite lookup_app_r by lia.
    by replace (S (length h) - length h)%nat with 1%nat by lia.
Qed.





(** ** C7: the dataset iterator *)

Lemma glob_match_empty pat :
  glob_match pat "" = true -> all_chars (fun c => c = "*"%char) pat.
Proof.
  induction pat as [|p pat IH]; simpl; [done|].
  destruct (Ascii.eqb_spec p "*") as [->|_]; [|done].
  rewrite orb_false_r. auto.
Qed.

(** What matches the pattern of a sequence is not the empty path. *)
Lemma glob_sequence_not_empty fs root j dir :
  dir ∈ glob fs (sequence_pattern root j) -> dir <> "".
Proof.
  unfold glob. rewrite list_elem_of_filter. intros [Hmatch _] ->.
  apply glob_match_empty in Hmatch. unfold sequence_pattern in Hmatch.
  apply all_chars_app in Hmatch as [_ Hmatch].
  apply all_chars_app in Hmatch as [Hmatch _]. simpl in Hmatch.
  by destruct Hmatch as (_ & ? & _).
Qed.

Lemma string_length_zero (s : string) : s <> "" -> (String.length s =? 0)%nat = false.
Proof. by destruct s. Qed.

(** Loading a sequence whose directory is the one match of its pattern. *)
Lemma load_sequence_found fs h d j dir :
  glob fs (sequence_pattern (dl_filepath d) j) = [dir] ->
  manifest_ok fs dir ->
  exists s,
    load_sequence fs h d j = Ok (s, h ++ [[]]) /\
    filepath s = dir /\ choose_midpoints s = dl_choose_midpoints d.
Proof.
  intros Hglob (raw & m & Hraw & Hm). unfold load_sequence. rewrite Hglob.
  cbn [Py.join]. rewrite string_length_zero.
  - unfold SequenceLoader_init, open_r. rewrite Hraw. csimpl. rewrite Hm. csimpl.
    eexists. split; [reflexivity|done].
  - eapply glob_sequence_not_empty. rewrite Hglob. by left.
Qed.

Lemma load_sequence_missing fs h d j :
  glob fs (sequence_pattern (dl_filepath d) j) = [] ->
  load_sequence fs h d j = Raise IOError.
Proof. intros Hglob. unfold load_sequence. by rewrite Hglob. Qed.

Lemma dl_collect_stop fuel fs g dh : dl_collect fuel fs (StopIteration, g, dh) = Some (Ok []).
Proof. by destruct fuel. Qed.

(** The loop of [DataLoader.__iter__] from the sequence number [j] on. *)
Lemma dl_collect_loop fs dirs :
  forall j d h fuel,
    sequence d = Some j ->
    (forall i dir, dirs !! i = Some dir ->
       glob fs (sequence_pattern (dl_filepath d) (j + Z.of_nat i)) = [dir] /\
       manifest_ok fs dir) ->
    glob fs (sequence_pattern (dl_filepath d) (j + Z.of_nat (length dirs))) = [] ->
    (length dirs <= fuel)%nat ->
    exists seqs,
      dl_collect fuel fs (dl_loop fs h d) = Some (Ok seqs) /\
      map filepath seqs = dirs /\
      Forall (fun s => choose_midpoints s = dl_choose_midpoints d) seqs.
Proof.
  induction dirs as [|dir dirs IH]; intros j d h fuel Hj Hdirs Hend Hfuel.
  - exists []. unfold dl_loop. rewrite Hj.
    simpl in Hend. rewrite Z.add_0_r in Hend.
    rewrite load_sequence_missing by done. by rewrite dl_collect_stop.
  - destruct (Hdirs 0%nat dir eq_refl) as [Hglob Hok].
    change (Z.of_nat 0) with 0%Z in Hglob. rewrite Z.add_0_r in Hglob.
    destruct (load_sequence_found fs h d j dir Hglob Hok) as (s & Hload & Hpath & Hmid).
    destruct fuel as [|fuel]; [simpl in Hfuel; lia|].
    destruct (IH (j + 1)%Z (set_sequence (j + 1) d) (h ++ [[]]) fuel)
      as (seqs & Hseqs & Hpaths & Hmids); simpl.
    + done.
    + intros i dir' Hi.
      replace (j + 1 + Z.of_nat i)%Z with (j + Z.of_nat (S i))%Z by lia.
      by apply Hdirs.
    + replace (j + 1 + Z.of_nat (length dirs))%Z
        with (j + Z.of_nat (length (dir :: dirs)))%Z by (simpl; lia).
      done.
    + simpl in Hfuel. lia.
    + exists (s :: seqs). unfold dl_loop at 1. rewrite Hj, Hload.
      cbn [dl_collect dl_next fst snd]. rewrite Hseqs. simpl.
      split_and!; [done|by rewrite Hpath, Hpaths|by constructor].
Qed.

(** C7. When the sequences numbered 1 to [n] are there (for each, the
    pattern of its number matches one directory, in which the manifest is
    readable and complete) and nothing matches the number [n + 1], the
    dataset iterator yields the loaders of these [n] directories, in the
    order of their numbers, and ends with no error, whatever stands at
    higher numbers. *)
Theorem dataset_stops_at_first_gap fs d h dirs fuel :
  (forall i dir, dirs !! i = Some dir ->
     glob fs (sequence_pattern (dl_filepath d) (1 + Z.of_nat i)) = [dir] /\
     manifest_ok fs dir) ->
  glob fs (sequence_pattern (dl_filepath d) (1 + Z.of_nat (length dirs))) = [] ->
  (length dirs <= fuel)%nat ->
  exists seqs,
    dl_collect fuel fs (dl_next fs DlCreated (d, h)) = Some (Ok seqs) /\
    map filepath seqs = dirs /\
    Forall (fun s => choose_midpoints s = dl_choose_midpoints d) seqs.
Proof.
  intros Hdirs Hend Hfuel. cbn [dl_next fst snd].
  by apply (dl_collect_loop fs dirs 1 (set_sequence 1 d) h fuel).
Qed.

(** With the directories 1, 2 and 4 the iterator yields two sequences. *)
Lemma dataset_stops_at_first_gap_witness :
  exists seqs,
    dl_collect 2 fs_124 (dl_next fs_124 DlCreated (mkLoader "./data/" true None, []))
    = Some (Ok seqs) /\
    map filepath seqs = ["./data/test/MOT16-01"; "./data/train/MOT16-02"] /\
    Forall (fun s => choose_midpoints s = true) seqs.
Proof.
  apply (dataset_stops_at_first_gap fs_124 (mkLoader "./data/" true None) []
           ["./data/test/MOT16-01"; "./data/train/MOT16-02"] 2).
  - intros [|[|i]] dir; simpl; intros [= <-].
    + split; [vm_compute; reflexivity|].
      eexists _, _. split; vm_compute; reflexivity.
    + split; [vm_compute; reflexivity|].
      eexists _, _. split; vm_compute; reflexivity.
  - vm_compute. reflexivity.
  - simpl. lia.
Defined.

(** ** C9: which failures end the dataset iteration, and which propagate *)

(** C9, counterexample: the failure to open the manifest is taken for the
    end of the dataset. *)
Lemma read_failure_absorbed :
  ~ read_failure_propagates fs_no_manifest (mkLoader "./data/" false None).
Proof.
  intros H.
  destruct (H "./data/test/MOT16-01" []) as (g' & dh' & Hnext);
    [vm_compute; reflexivity|vm_compute; reflexivity|].
  vm_compute in Hnext. discriminate.
Qed.

Lemma manifest_field_raise info i e :
  manifest_field info i = Raise e -> e = IndexError.
Proof.
  unfold manifest_field, Py.index.
  destruct (info !! i) as [line|]; csimpl; [|by intros [= <-]].
  destruct (Py.split "=" line !! 1%nat); csimpl; [done|by intros [= <-]].
Qed.

(** A manifest that is read fails on a missing line or a missing [=]
    only. *)
Lemma parse_manifest_raise fid e : parse_manifest fid = Raise e -> e = IndexError.
Proof.
  unfold parse_manifest.
  repeat (intros [H|(? & _ & H)]%bind_Raise;
          [by eapply manifest_field_raise|revert H]).
  done.
Qed.

(** C9, amended. No failure is retried. A failure to read inside
    [load_sequence] ends the dataset iteration as if no sequence were left:
    this is so when the manifest of a directory that is there cannot be
    opened. A manifest that is opened but is short of a line or of an [=]
    raises [IndexError] to the caller. A failure to open the annotation
    file, which happens later, when the frames of a sequence are pulled,
    raises [IOError] to the caller of the frame iterator. *)
Theorem read_failure_handling disk d h j dir :
  sequence d = Some j ->
  glob disk (sequence_pattern (dl_filepath d) j) = [dir] ->
  (files disk !! (dir +:+ "/seqinfo.ini") = None ->
   dl_next disk DlAtYield (d, h) = (StopIteration, DlFinished, (d, h)) /\
   dl_next disk DlFinished (d, h) = (StopIteration, DlFinished, (d, h))) /\
  (forall raw e,
     files disk !! (dir +:+ "/seqinfo.ini") = Some raw ->
     parse_manifest (Py.universal_newlines raw) = Raise e ->
     dl_next disk DlAtYield (d, h) = (Throw IndexError, DlFinished, (d, h))) /\
  (forall σ n img,
     Py.int (seqLength (self σ)) = Ok n -> (1 <= n)%Z ->
     imread (fs σ) (image_path (self σ) 1) = Some img ->
     Py.contains "train" (filepath (self σ)) = false ->
     files (fs σ) !! (filepath (self σ) +:+ "/det/det.txt") = None ->
     seq_next SqCreated σ
     = (Throw IOError, SqFinished, with_self (set_frame 1 (self σ)) σ) /\
     seq_next SqFinished (with_self (set_frame 1 (self σ)) σ)
     = (StopIteration, SqFinished, with_self (set_frame 1 (self σ)) σ)).
Proof.
  intros Hj Hglob.
  assert (Hdir : (String.length dir =? 0)%nat = false).
  { apply string_length_zero. eapply glob_sequence_not_empty.
    rewrite Hglob. by left. }
  split_and!.
  - intros Hnone. split; [|done].
    cbn [dl_next fst snd]. unfold dl_loop, load_sequence. rewrite Hj, Hglob.
    cbn [Py.join]. rewrite Hdir. unfold SequenceLoader_init, open_r.
    by rewrite Hnone.
  - intros raw e Hraw Hparse.
    cbn [dl_next fst snd]. unfold dl_loop, load_sequence. rewrite Hj, Hglob.
    cbn [Py.join]. rewrite Hdir. unfold SequenceLoader_init, open_r.
    rewrite Hraw. csimpl. rewrite Hparse. csimpl.
    by rewrite (parse_manifest_raise _ _ Hparse).
  - intros σ n img Hn Hn1 Himg Htest Hdet. split; [|done].
    cbn [seq_next]. cbn [seqLength self with_self set_frame]. rewrite Hn.
    rewrite range_cons by lia. cbn [seq_loop].
    set (σ1 := with_self (set_frame 1 (self σ)) σ).
    change (imread (fs σ1) (image_path (self σ1) 1))
      with (imread (fs σ) (image_path (self σ) 1)).
    rewrite Himg. cbn [load_gt_next]. unfold gt_open.
    change (filepath (self σ1)) with (filepath (self σ)).
    change (fs σ1) with (fs σ).
    rewrite Htest. unfold open_r. by rewrite Hdet.
Qed.

Lemma read_failure_handling_witness :
  (files fs_no_manifest !! ("./data/test/MOT16-01" +:+ "/seqinfo.ini") = None ->
   dl_next fs_no_manifest DlAtYield (mkLoader "./data/" false (Some 1), [])
   = (StopIteration, DlFinished, (mkLoader "./data/" false (Some 1), [])) /\
   dl_next fs_no_manifest DlFinished (mkLoader "./data/" false (Some 1), [])
   = (StopIteration, DlFinished, (mkLoader "./data/" false (Some 1), []))) /\
  (forall raw e,
     files fs_no_manifest !! ("./data/test/MOT16-01" +:+ "/seqinfo.ini") = Some raw ->
     parse_manifest (Py.universal_newlines raw) = Raise e ->
     dl_next fs_no_manifest DlAtYield (mkLoader "./data/" false (Some 1), [])
     = (Throw IndexError, DlFinished, (mkLoader "./data/" false (Some 1), []))) /\
  (forall σ n img,
     Py.int (seqLength (self σ)) = Ok n -> (1 <= n)%Z ->
     imread (fs σ) (image_path (self σ) 1) = Some img ->
     Py.contains "train" (filepath (self σ)) = false ->
     files (fs σ) !! (filepath (self σ) +:+ "/det/det.txt") = None ->
     seq_next SqCreated σ
     = (Throw IOError, SqFinished, with_self (set_frame 1 (self σ)) σ) /\
     seq_next SqFinished (with_self (set_frame 1 (self σ)) σ)
     = (StopIteration, SqFinished, with_self (set_frame 1 (self σ)) σ)).
Proof.
  apply (read_failure_handling fs_no_manifest (mkLoader "./data/" false (Some 1)) []
           1 "./data/test/MOT16-01"); vm_compute; reflexivity.
Defined.

(** ** C8: the distance matrix *)



















(** * Further properties of the code *)

(** ** The grouper on whole sources *)

(** The groups of a drained generator, in closed form. *)
Lemma gt_collect_source σ σ' text rows cur fuel :
  gt_open σ = (Ok text, σ') ->
  frame (self σ) = Some cur ->
  rmap parse_line (Py.lines text) = Ok rows ->
  (length rows < fuel)%nat ->
  gt_collect fuel (load_gt_next GtCreated σ)
  = Some (Ok (render (choose_midpoints (self σ)) (scan cur [] rows))).
Proof.
  intros Hopen Hcur Hrows Hfuel.
  destruct (gt_open_frame _ _ _ Hopen) as (Hself & Hhp & _).
  rewrite (load_gt_next_created _ _ _ Hopen).
  set (h := hp σ) in *.
  rewrite (gt_collect_loop _ rows fuel (with_hp (h ++ [[]; []]) σ')
             (length h) (S (length h)) cur [] Hrows);
    [by cbn [self with_hp]; rewrite Hself|lia| | |by rewrite <-Hcur, <-Hself
     |by rewrite <-(rmap_length _ _ _ Hrows)].
  - cbn [hp with_hp]. by rewrite lookup_app_r, Nat.sub_diag.
  - cbn [hp with_hp]. rewrite lookup_app_r by lia.
    by replace (S (length h) - length h)%nat with 1%nat by lia.
Qed.

Lemma scan_same cur pending block rest :
  Forall (fun r => r_frame r = cur) block ->
  scan cur pending (block ++ rest) = scan cur (pending ++ block) rest.
Proof.
  intros Hblock. revert pending.
  induction Hblock as [|r block Hr _ IH]; intros pending; simpl.
  - by rewrite app_nil_r.
  - rewrite Hr, Z.eqb_refl. simpl. rewrite IH. by rewrite <-app_assoc.
Qed.

Lemma scan_blocks blocks :
  forall cur pending,
    (forall i block, blocks !! i = Some block ->
       block <> [] /\ Forall (fun r => r_frame r = (cur + 1 + Z.of_nat i)%Z) block) ->
    scan cur pending (concat blocks) = pending :: blocks.
Proof.
  induction blocks as [|block blocks IH]; intros cur pending Hblocks; [done|].
  destruct (Hblocks 0%nat block eq_refl) as [Hne Hframes].
  destruct block as [|r block]; [done|].
  inversion_clear Hframes as [|?? Hr Hblock].
  change (Z.of_nat 0) with 0%Z in Hr, Hblock. rewrite Z.add_0_r in Hr, Hblock.
  simpl. replace (r_frame r =? cur)%Z with false by lia. simpl.
  rewrite scan_same by done. rewrite IH; [done|].
  intros i block' Hi. destruct (Hblocks (S i) block' Hi) as [? Hall].
  split; [done|]. eapply Forall_impl; [exact Hall|]. intros r'. simpl. lia.
Qed.

(** X1. A source in which the records of the frames [cur], [cur + 1], ...
    follow one another, none of these frames without a record, is grouped
    by frame: the groups handed out are the blocks of the frames, in
    order. *)
Theorem contiguous_frames_grouped_by_frame σ σ' text blocks cur fuel :
  gt_open σ = (Ok text, σ') ->
  frame (self σ) = Some cur ->
  rmap parse_line (Py.lines text) = Ok (concat blocks) ->
  blocks <> [] ->
  (forall i block, blocks !! i = Some block ->
     block <> [] /\ Forall (fun r => r_frame r = (cur + Z.of_nat i)%Z) block) ->
  (length (concat blocks) < fuel)%nat ->
  gt_collect fuel (load_gt_next GtCreated σ)
  = Some (Ok (render (choose_midpoints (self σ)) blocks)).
Proof.
  intros Hopen Hcur Hrows Hne Hblocks Hfuel.
  rewrite (gt_collect_source _ _ _ _ _ _ Hopen Hcur Hrows Hfuel).
  destruct blocks as [|block blocks]; [done|].
  destruct (Hblocks 0%nat block eq_refl) as [_ Hframes].
  change (Z.of_nat 0) with 0%Z in Hframes. rewrite Z.add_0_r in Hframes.
  change (concat (block :: blocks)) with (block ++ concat blocks).
  rewrite scan_same by done. rewrite scan_blocks; [done|].
  intros i block' Hi. destruct (Hblocks (S i) block' Hi) as [? Hall].
  split; [done|]. eapply Forall_impl; [exact Hall|]. intros r'. simpl. lia.
Qed.

Lemma contiguous_frames_grouped_by_frame_witness :
  gt_collect 3 (load_gt_next GtCreated mid_start)
  = Some (Ok (render true [[mkRow 1 [10; 20; 4; 6]%float [12; 23]%float];
                           [mkRow 2 [1; 2; 3; 4]%float [2.5; 4]%float]])).
Proof.
  apply (contiguous_frames_grouped_by_frame mid_start mid_start det_12
           [[mkRow 1 [10; 20; 4; 6]%float [12; 23]%float];
            [mkRow 2 [1; 2; 3; 4]%float [2.5; 4]%float]] 1 3).
  - vm_compute. reflexivity.
  - reflexivity.
  - vm_compute. reflexivity.
  - done.
  - intros [|[|i]] block; simpl; intros [= <-]; split; try done;
      by repeat constructor.
  - simpl. lia.
Defined.

Lemma scan_nonempty rows :
  forall cur pending,
    pending <> [] -> Forall (fun g => g <> []) (scan cur pending rows).
Proof.
  induction rows as [|r rows IH]; intros cur pending Hne; simpl.
  - by repeat constructor.
  - destruct (negb _).
    + constructor; [done|]. by apply IH.
    + apply IH. by destruct pending.
Qed.

Lemma scan_first rows :
  forall cur,
    exists g gs,
      scan cur [] rows = g :: gs /\
      Forall (fun g' => g' <> []) gs /\
      (g = [] <-> rows = [] \/ exists r rest, rows = r :: rest /\ r_frame r <> cur).
Proof.
  intros cur. destruct rows as [|r rows]; simpl.
  - exists [], []. split_and!; [done|done|]. split; auto.
  - destruct (Z.eqb_spec (r_frame r) cur) as [Heq|Hne]; simpl.
    + pose proof (scan_nonempty rows cur [r] ltac:(done)) as Hall.
      destruct (scan cur [r] rows) as [|g gs] eqn:Hscan;
        [by apply scan_not_nil in Hscan|].
      exists g, gs. inversion_clear Hall as [|?? Hg Hgs].
      split_and!; [done|done|]. split; [done|].
      intros [?|(r' & rest & [= <- <-] & ?)]; done.
    + exists [], (scan (cur + 1) [r] rows). split_and!; [done| |].
      * by apply scan_nonempty.
      * split; [|done]. intros _. right. eauto.
Qed.

Lemma render_first mid g gs :
  exists g' gs',
    render mid (g :: gs) = g' :: gs' /\
    (g' = [] <-> g = []) /\
    (Forall (fun x => x <> []) gs -> Forall (fun x => x <> []) gs').
Proof.
  revert g. induction gs as [|h gs IH]; intros g.
  - exists (map r_box g), []. split_and!; [done| |done].
    by destruct g.
  - rewrite render_cons by done.
    destruct (IH h) as (h' & gs' & Hr & Hh & Hgs).
    exists (map (item_of mid) g), (render mid (h :: gs)).
    split_and!; [done|by destruct g|].
    intros Hall. inversion_clear Hall as [|?? Hhne Hgsne].
    rewrite Hr. constructor; [|by apply Hgs].
    by rewrite Hh.
Qed.

(** X2. Whatever the source, only the first group that the grouper hands
    out can be empty, and it is empty exactly when the source has no record
    or its first record has another frame index than the counter; every
    later group holds at least one record. *)
Theorem empty_group_only_first σ σ' text rows cur fuel :
  gt_open σ = (Ok text, σ') ->
  frame (self σ) = Some cur ->
  rmap parse_line (Py.lines text) = Ok rows ->
  (length rows < fuel)%nat ->
  exists g gs,
    gt_collect fuel (load_gt_next GtCreated σ) = Some (Ok (g :: gs)) /\
    Forall (fun g' => g' <> []) gs /\
    (g = [] <-> rows = [] \/ exists r rest, rows = r :: rest /\ r_frame r <> cur).
Proof.
  intros Hopen Hcur Hrows Hfuel.
  rewrite (gt_collect_source _ _ _ _ _ _ Hopen Hcur Hrows Hfuel).
  destruct (scan_first rows cur) as (g & gs & -> & Hgs & Hg).
  destruct (render_first (choose_midpoints (self σ)) g gs)
    as (g' & gs' & -> & Hg' & Hgs').
  exists g', gs'. split_and!; [done|by apply Hgs'|by rewrite Hg'].
Qed.

Lemma empty_group_only_first_witness :
  exists g gs,
    gt_collect 4 (load_gt_next GtCreated
                    (with_self (set_frame 1 (self (test_state "3" det_gap [] false)))
                               (test_state "3" det_gap [] false)))
    = Some (Ok (g :: gs)) /\
    Forall (fun g' => g' <> []) gs /\
    (g = [] <->
     [mkRow 1 [10; 20; 4; 6]%float [12; 23]%float;
      mkRow 3 [1; 2; 3; 4]%float [2.5; 4]%float;
      mkRow 3 [5; 5; 5; 5]%float [7.5; 7.5]%float] = [] \/
     exists r rest,
       [mkRow 1 [10; 20; 4; 6]%float [12; 23]%float;
        mkRow 3 [1; 2; 3; 4]%float [2.5; 4]%float;
        mkRow 3 [5; 5; 5; 5]%float [7.5; 7.5]%float] = r :: rest /\
       r_frame r <> 1%Z).
Proof.
  apply (empty_group_only_first
           (with_self (set_frame 1 (self (test_state "3" det_gap [] false)))
                      (test_state "3" det_gap [] false))
           (with_self (set_frame 1 (self (test_state "3" det_gap [] false)))
                      (test_state "3" det_gap [] false))
           det_gap _ 1 4).
  - vm_compute. reflexivity.
  - reflexivity.
  - vm_compute. reflexivity.
  - simpl. lia.
Defined.

Lemma append_row_other box b m σ r σ' l :
  append_row box b m σ = (r, σ') -> l <> b -> l <> m -> hp σ' !! l = hp σ !! l.
Proof.
  unfold append_row. destruct (box_of box); [|by intros [= <- <-]].
  destruct (midpoint_of box); intros [= <- <-] Hb Hm; simpl.
  - by rewrite !heap_append_ne.
  - by rewrite heap_append_ne.
Qed.

(** The loop over records that all carry the frame index of the counter:
    it reaches the end of the input without a [yield] inside. *)
Lemma load_gt_loop_single_frame lines :
  forall rows σ b m vb vm cur,
    rmap parse_line lines = Ok rows ->
    Forall (fun r => r_frame r = cur) rows ->
    b <> m ->
    hp σ !! b = Some vb -> hp σ !! m = Some vm ->
    frame (self σ) = Some cur ->
    exists σ',
      load_gt_loop lines b m σ = (Yield b, GtAtFinalYield, σ') /\
      self σ' = self σ /\ fs σ' = fs σ /\
      hp σ' !! b = Some (vb ++ map r_box rows) /\
      hp σ' !! m = Some (vm ++ map r_mid rows) /\
      forall l, l <> b -> l <> m -> hp σ' !! l = hp σ !! l.
Proof.
  induction lines as [|line lines IH];
    intros rows σ b m vb vm cur Hrows Hframes Hbm Hb Hm Hcur.
  - injection Hrows as <-. exists σ. simpl. rewrite !app_nil_r. done.
  - simpl in Hrows.
    apply bind_Ok in Hrows as (r & Hr & (rows' & Hrows' & [= <-])%bind_Ok).
    inversion_clear Hframes as [|?? Hrcur Hframes'].
    destruct (parse_line_inv _ _ Hr) as (Hkey & Hbox & Hmid).
    cbn [load_gt_loop]. rewrite Hkey, Hcur. csimpl.
    rewrite Hrcur, Z.eqb_refl. cbn [negb].
    destruct (append_row_ok (Py.split "," line) b m σ _ _ _ _ Hbm Hbox Hmid Hb Hm)
      as (σ1 & Happ & Hfs & Hself & _ & Hb1 & Hm1).
    rewrite Happ.
    destruct (IH rows' σ1 b m _ _ cur Hrows' Hframes' Hbm Hb1 Hm1)
      as (σ' & Hloop & Hself' & Hfs' & Hb' & Hm' & Hother); [by rewrite Hself|].
    exists σ'. rewrite Hloop. simpl. rewrite <-!app_assoc in Hb', Hm'.
    split_and!; try done; try congruence.
    intros l Hlb Hlm. rewrite Hother by done.
    by eapply append_row_other.
Qed.

(** X3. When every record of the source carries the frame index of the
    counter (one frame only, or no record at all), the first pull is the
    flush at the end of the input: whatever the flag, it hands out the
    boxes of all the records, and [self.midpoints] still denotes the list
    it denoted before, with the content it had; the midpoints that were
    collected are never bound to it. *)
Theorem single_frame_never_binds_midpoints σ σ' text rows cur :
  gt_open σ = (Ok text, σ') ->
  frame (self σ) = Some cur ->
  rmap parse_line (Py.lines text) = Ok rows ->
  Forall (fun r => r_frame r = cur) rows ->
  (midpoints (self σ) < length (hp σ))%nat ->
  exists b σ1,
    load_gt_next GtCreated σ = (Yield b, GtAtFinalYield, σ1) /\
    heap_read (hp σ1) b = map r_box rows /\
    midpoints (self σ1) = midpoints (self σ) /\
    heap_read (hp σ1) (midpoints (self σ1)) = heap_read (hp σ) (midpoints (self σ)).
Proof.
  intros Hopen Hcur Hrows Hframes Hmid.
  destruct (gt_open_frame _ _ _ Hopen) as (Hself & Hhp & _).
  rewrite (load_gt_next_created _ _ _ Hopen).
  set (h := hp σ) in *.
  destruct (load_gt_loop_single_frame _ rows (with_hp (h ++ [[]; []]) σ')
              (length h) (S (length h)) [] [] cur Hrows Hframes)
    as (σ1 & Hloop & Hself1 & _ & Hb1 & _ & Hother).
  - lia.
  - cbn [hp with_hp]. by rewrite lookup_app_r, Nat.sub_diag.
  - cbn [hp with_hp]. rewrite lookup_app_r by lia.
    by replace (S (length h) - length h)%nat with 1%nat by lia.
  - by rewrite <-Hcur, <-Hself.
  - exists (length h), σ1. rewrite Hloop. cbn [self with_hp] in Hself1.
    split_and!; [done|by apply heap_read_lookup|congruence|].
    rewrite Hself1, Hself. unfold heap_read.
    rewrite Hother by lia. cbn [hp with_hp].
    by rewrite lookup_app_l by done.
Qed.

Lemma single_frame_never_binds_midpoints_witness :
  exists b σ1,
    load_gt_next GtCreated
      (with_self (set_frame 1 (self (test_state "1" det_1 [] true)))
                 (test_state "1" det_1 [] true))
    = (Yield b, GtAtFinalYield, σ1) /\
    heap_read (hp σ1) b
    = map r_box [mkRow 1 [10; 20; 4; 6]%float [12; 23]%float;
                 mkRow 1 [1; 2; 3; 4]%float [2.5; 4]%float] /\
    midpoints (self σ1) = 0%nat /\
    heap_read (hp σ1) (midpoints (self σ1)) = [].
Proof.
  apply (single_frame_never_binds_midpoints
           (with_self (set_frame 1 (self (test_state "1" det_1 [] true)))
                      (test_state "1" det_1 [] true))
           (with_self (set_frame 1 (self (test_state "1" det_1 [] true)))
                      (test_state "1" det_1 [] true))
           det_1 _ 1).
  - vm_compute. reflexivity.
  - reflexivity.
  - vm_compute. reflexivity.
  - by repeat constructor.
  - simpl. lia.
Defined.

(** X4. A record that opens a new frame is looked at in two steps. Its
    frame index closes the group before it, which is handed out first; its
    four numbers are only read at the next pull, and when one of them
    fails to parse that pull raises the error, the generator is finished,
    and the two buffers, the list handed out before among them, are left
    empty. *)
Theorem malformed_record_raises_one_pull_late line rest b m σ vb vm n cur e :
  b <> m ->
  hp σ !! b = Some vb -> hp σ !! m = Some vm ->
  frame (self σ) = Some cur ->
  row_key (Py.split "," line) = Ok n ->
  n <> cur ->
  box_of (Py.split "," line) = Raise e ->
  exists g gen1 σ1 σ2,
    load_gt_loop (line :: rest) b m σ = (Yield g, gen1, σ1) /\
    heap_read (hp σ1) g = (if choose_midpoints (self σ) then vm else vb) /\
    load_gt_next gen1 σ1 = (Throw e, GtFinished, σ2) /\
    heap_read (hp σ2) b = [] /\ heap_read (hp σ2) m = [] /\
    load_gt_next GtFinished σ2 = (StopIteration, GtFinished, σ2).
Proof.
  intros Hbm Hb Hm Hcur Hkey Hne Hbox.
  cbn [load_gt_loop]. rewrite Hkey, Hcur. csimpl.
  replace (n =? cur)%Z with false by lia. cbn [negb].
  eexists _, _, _, _. split; [reflexivity|].
  cbn [load_gt_next]. unfold append_row. rewrite Hbox.
  cbn [midpoints set_midpoints with_self self hp with_hp].
  split_and!; try done.
  - destruct (choose_midpoints (self σ)); by apply heap_read_lookup.
  - cbn [hp with_hp]. apply heap_read_lookup.
    rewrite !(heap_clear_ne m b) by done. by eapply heap_clear_eq.
  - cbn [hp with_hp]. apply heap_read_lookup.
    eapply heap_clear_eq, heap_clear_eq. by rewrite heap_clear_ne.
Qed.

Lemma malformed_record_raises_one_pull_late_witness :
  exists g gen1 σ1 σ2,
    load_gt_loop ["2,-1,1,2,wide,4"] 1 2
      (mkState (test_fs "2" det_bad []) [[]; [[10; 20; 4; 6]%float]; [[12; 23]%float]]
               (set_frame 1 (self (test_state "2" det_bad [] true))))
    = (Yield g, gen1, σ1) /\
    heap_read (hp σ1) g = [[12; 23]%float] /\
    load_gt_next gen1 σ1 = (Throw ValueError, GtFinished, σ2) /\
    heap_read (hp σ2) 1 = [] /\ heap_read (hp σ2) 2 = [] /\
    load_gt_next GtFinished σ2 = (StopIteration, GtFinished, σ2).
Proof.
  apply (malformed_record_raises_one_pull_late "2,-1,1,2,wide,4" [] 1 2
           (mkState (test_fs "2" det_bad []) [[]; [[10; 20; 4; 6]%float]; [[12; 23]%float]]
                    (set_frame 1 (self (test_state "2" det_bad [] true))))
           [[10; 20; 4; 6]%float] [[12; 23]%float] 2 1 ValueError);
    try done; vm_compute; reflexivity.
Defined.

(** ** Which exceptions the grouper and the frame iterator raise *)


















(** ** The frame iterator on whole sequences *)

Lemma range_nil a b : (b <= a)%Z -> range a b = [].
Proof. intros Hab. unfold range. by replace (Z.to_nat (b - a)) with 0%nat by lia. Qed.

(** The loop of [__iter__] from frame [j] on, when the next [k] images are
    there, the loop ends after them (at the declared length, or at a
    missing image), and the grouper has [k] groups. *)
Lemma seq_collect_loop_end n k :
  forall j gen σ imgs groups fuel,
    (j + Z.of_nat k <= n + 1)%Z ->
    length imgs = k ->
    (forall i img, imgs !! i = Some img ->
       imread (fs σ) (image_path (self σ) (j + Z.of_nat i)) = Some img) ->
    (j + Z.of_nat k = n + 1)%Z \/
      imread (fs σ) (image_path (self σ) (j + Z.of_nat k)) = None ->
    gt_take k (load_gt_next gen σ) = Some groups ->
    (k <= fuel)%nat ->
    seq_collect fuel (seq_loop (range j (n + 1)) gen σ) = Some (Ok (zip imgs groups)).
Proof.
  induction k as [|k IH];
    intros j gen σ imgs groups fuel Hj Hlen Himgs Hend Htake Hfuel.
  - destruct imgs; [|done]. destruct Hend as [Hend|Hnone].
    + rewrite range_nil by lia. simpl. apply seq_collect_stop.
    + destruct (Z.le_gt_cases (n + 1) j).
      * rewrite range_nil by lia. simpl. apply seq_collect_stop.
      * rewrite range_cons by lia. simpl.
        rewrite Z.add_0_r in Hnone. rewrite Hnone. apply seq_collect_stop.
  - destruct imgs as [|img imgs]; [done|]. rewrite range_cons by lia.
    pose proof (Himgs 0%nat img eq_refl) as H0.
    change (Z.of_nat 0) with 0%Z in H0. rewrite Z.add_0_r in H0.
    cbn [seq_loop]. rewrite H0.
    cbn [gt_take] in Htake.
    destruct (load_gt_next gen σ) as [[[l| |e] gen1] σ1] eqn:Hnext; try done.
    destruct (gt_take k (load_gt_next gen1 σ1)) as [groups'|] eqn:Htake'; [|done].
    injection Htake as <-.
    destruct fuel as [|fuel]; [lia|]. cbn [seq_collect seq_next].
    pose proof (load_gt_next_same _ _ _ _ _ Hnext) as Hsame.
    rewrite (IH (j + 1)%Z gen1 σ1 imgs groups' fuel); try done.
    + lia.
    + by injection Hlen.
    + intros i img' Hi. rewrite (same_sequence_imread _ _ _ Hsame).
      replace (j + 1 + Z.of_nat i)%Z with (j + Z.of_nat (S i))%Z by lia.
      by apply Himgs.
    + rewrite (same_sequence_imread _ _ _ Hsame).
      replace (j + 1 + Z.of_nat k)%Z with (j + Z.of_nat (S k))%Z by lia.
      destruct Hend as [Hend|Hnone]; [left; lia|by right].
    + lia.
Qed.

(** X6. The pairs of a whole pass over a sequence, in closed form. When
    the annotation file opens and each of its lines is a record, the images
    of the frames 1 to [k] are there, the loop ends after them ([k] is the
    declared length, or image [k + 1] is missing), and the grouper forms at
    least [k] groups, the pass yields the [k] images, each with the group
    of the same rank, and ends with no error. The pairs depend on the
    files and on the fields of the loader only, not on the heap or on the
    value the counter had. *)
Theorem frame_iterator_pairs σ σ' text rows n k imgs fuel :
  Py.int (seqLength (self σ)) = Ok n ->
  gt_open (with_self (set_frame 1 (self σ)) σ) = (Ok text, σ') ->
  rmap parse_line (Py.lines text) = Ok rows ->
  length imgs = k ->
  (forall i img, imgs !! i = Some img ->
     imread (fs σ) (image_path (self σ) (1 + Z.of_nat i)) = Some img) ->
  Z.of_nat k = n \/
    ((Z.of_nat k < n)%Z /\ imread (fs σ) (image_path (self σ) (1 + Z.of_nat k)) = None) ->
  (k <= length (scan 1 [] rows))%nat ->
  (k <= fuel)%nat ->
  seq_collect fuel (seq_next SqCreated σ)
  = Some (Ok (zip imgs (take k (render (choose_midpoints (self σ)) (scan 1 [] rows))))).
Proof.
  intros Hn Hopen Hrows Hlen Himgs Hend Hk Hfuel.
  cbn [seq_next]. cbn [seqLength self with_self set_frame]. rewrite Hn.
  eapply (seq_collect_loop_end n k 1);
    [destruct Hend as [?|[? _]]; lia|exact Hlen|exact Himgs| | |exact Hfuel].
  - destruct Hend as [?|[_ ?]]; [left; lia|by right].
  - by rewrite (gt_take_source _ _ _ _ 1 k Hopen eq_refl Hrows Hk).
Qed.

(** A whole pass over two frames, both images there. *)
Lemma frame_iterator_pairs_witness :
  seq_collect 2 (seq_next SqCreated (test_state "2" det_12 [1; 2] false))
  = Some (Ok [(Image [1], [[10; 20; 4; 6]%float]); (Image [2], [[1; 2; 3; 4]%float])]).
Proof.
  apply (frame_iterator_pairs (test_state "2" det_12 [1; 2] false)
           (with_self (set_frame 1 (self (test_state "2" det_12 [1; 2] false)))
                      (test_state "2" det_12 [1; 2] false))
           det_12
           [mkRow 1 [10; 20; 4; 6]%float [12; 23]%float;
            mkRow 2 [1; 2; 3; 4]%float [2.5; 4]%float]
           2 2 [Image [1]; Image [2]] 2).
  - vm_compute. reflexivity.
  - vm_compute. reflexivity.
  - vm_compute. reflexivity.
  - reflexivity.
  - intros [|[|i]] img; simpl; intros [= <-]; vm_compute; reflexivity.
  - by left.
  - simpl. lia.
  - lia.
Defined.

Lemma seq_collect_throw fuel e g σ : seq_collect fuel (Throw e, g, σ) = Some (Raise e).
Proof. by destruct fuel. Qed.

(** After as many pulls as the big-step view counts groups, the grouper
    is exhausted. *)
Lemma gt_drop_loop lines :
  forall rows σ b m cur pending,
    rmap parse_line lines = Ok rows ->
    b <> m ->
    hp σ !! b = Some (map r_box pending) ->
    hp σ !! m = Some (map r_mid pending) ->
    frame (self σ) = Some cur ->
    exists σe,
      gt_drop (length (scan cur pending rows)) (load_gt_loop lines b m σ)
      = Some (StopIteration, GtFinished, σe).
Proof.
  induction lines as [|line lines IH];
    intros rows σ b m cur pending Hrows Hbm Hb Hm Hcur.
  - injection Hrows as <-. exists σ. done.
  - simpl in Hrows.
    apply bind_Ok in Hrows as (r & Hr & (rows' & Hrows' & [= <-])%bind_Ok).
    destruct (parse_line_inv _ _ Hr) as (Hkey & Hbox & Hmid).
    cbn [load_gt_loop]. rewrite Hkey, Hcur. csimpl. cbn [scan].
    destruct (negb (r_frame r =? cur)%Z) eqn:Hne.
    + cbn [length gt_drop load_gt_next].
      cbn [midpoints set_midpoints with_self self hp].
      set (h3 := heap_clear m (heap_clear m (heap_clear b (hp σ)))).
      assert (Hb3 : h3 !! b = Some []).
      { unfold h3. rewrite !(heap_clear_ne m b) by done. by eapply heap_clear_eq. }
      assert (Hm3 : h3 !! m = Some []).
      { unfold h3. eapply heap_clear_eq, heap_clear_eq.
        by rewrite heap_clear_ne. }
      destruct (append_row_ok (Py.split "," line) b m
                  (with_hp h3 (with_self (set_midpoints m (set_frame (cur + 1) (self σ))) σ))
                  _ _ [] [] Hbm Hbox Hmid Hb3 Hm3)
        as (σ1 & -> & _ & Hself & _ & Hb' & Hm').
      apply (IH rows' σ1 b m (cur + 1)%Z [r]); try done.
      by rewrite Hself.
    + destruct (append_row_ok (Py.split "," line) b m σ _ _ _ _ Hbm Hbox Hmid Hb Hm)
        as (σ1 & -> & _ & Hself & _ & Hb' & Hm').
      apply (IH rows' σ1 b m cur (pending ++ [r])); try done.
      * by rewrite map_app.
      * by rewrite map_app.
      * by rewrite Hself.
Qed.

Lemma gt_drop_source σ σ' text rows cur :
  gt_open σ = (Ok text, σ') ->
  frame (self σ) = Some cur ->
  rmap parse_line (Py.lines text) = Ok rows ->
  exists σe,
    gt_drop (length (scan cur [] rows)) (load_gt_next GtCreated σ)
    = Some (StopIteration, GtFinished, σe).
Proof.
  intros Hopen Hcur Hrows.
  destruct (gt_open_frame _ _ _ Hopen) as (Hself & Hhp & _).
  rewrite (load_gt_next_created _ _ _ Hopen).
  set (h := hp σ) in *.
  apply (gt_drop_loop _ rows (with_hp (h ++ [[]; []]) σ')
           (length h) (S (length h)) cur [] Hrows).
  - lia.
  - cbn [hp with_hp]. by rewrite lookup_app_r, Nat.sub_diag.
  - cbn [hp with_hp]. rewrite lookup_app_r by lia.
    by replace (S (length h) - length h)%nat with 1%nat by lia.
  - by rewrite <-Hcur, <-Hself.
Qed.

(** The loop of [__iter__] from frame [j] on, when the images of the next
    [k + 1] frames are there and the pull of the grouper after [k] groups
    does not yield. *)
Lemma seq_collect_loop_fail n k :
  forall j gen σ out g' σ' fuel,
    (j + Z.of_nat k <= n)%Z ->
    (forall i, (i <= k)%nat ->
       is_Some (imread (fs σ) (image_path (self σ) (j + Z.of_nat i)))) ->
    gt_drop k (load_gt_next gen σ) = Some (out, g', σ') ->
    (forall l, out <> Yield l) ->
    (k <= fuel)%nat ->
    seq_collect fuel (seq_loop (range j (n + 1)) gen σ) = Some (Raise (surfaced out)).
Proof.
  induction k as [|k IH]; intros j gen σ out g' σ' fuel Hj Himgs Hdrop Hout Hfuel.
  - rewrite range_cons by lia. cbn [seq_loop].
    destruct (Himgs 0%nat ltac:(lia)) as [img H0].
    change (Z.of_nat 0) with 0%Z in H0. rewrite Z.add_0_r in H0. rewrite H0.
    simpl in Hdrop. injection Hdrop as ->.
    destruct out as [l| |e]; [by destruct (Hout l)| |]; apply seq_collect_throw.
  - rewrite range_cons by lia. cbn [seq_loop].
    destruct (Himgs 0%nat ltac:(lia)) as [img H0].
    change (Z.of_nat 0) with 0%Z in H0. rewrite Z.add_0_r in H0. rewrite H0.
    cbn [gt_drop] in Hdrop.
    destruct (load_gt_next gen σ) as [[[l| |e] gen1] σ1] eqn:Hnext; try done.
    destruct fuel as [|fuel]; [lia|]. cbn [seq_collect seq_next].
    pose proof (load_gt_next_same _ _ _ _ _ Hnext) as Hsame.
    rewrite (IH (j + 1)%Z gen1 σ1 out g' σ' fuel); try done.
    + lia.
    + intros i Hi. rewrite (same_sequence_imread _ _ _ Hsame).
      replace (j + 1 + Z.of_nat i)%Z with (j + Z.of_nat (S i))%Z by lia.
      apply Himgs. lia.
    + lia.
Qed.

(** X7. When the annotation file opens and each of its lines is a record,
    but the grouper forms fewer groups than the declared length, and the
    image of every frame up to the first one without a group is there, the
    pass does not end cleanly: it raises [RuntimeError] at that frame (the
    [StopIteration] of the exhausted grouper, inside a generator). *)
Theorem frame_iterator_runs_out_of_groups σ σ' text rows n fuel :
  Py.int (seqLength (self σ)) = Ok n ->
  gt_open (with_self (set_frame 1 (self σ)) σ) = (Ok text, σ') ->
  rmap parse_line (Py.lines text) = Ok rows ->
  (Z.of_nat (length (scan 1 [] rows)) < n)%Z ->
  (forall i, (i <= length (scan 1 [] rows))%nat ->
     is_Some (imread (fs σ) (image_path (self σ) (1 + Z.of_nat i)))) ->
  (length (scan 1 [] rows) <= fuel)%nat ->
  seq_collect fuel (seq_next SqCreated σ) = Some (Raise RuntimeError).
Proof.
  intros Hn Hopen Hrows Hfew Himgs Hfuel.
  destruct (gt_drop_source _ _ _ _ 1 Hopen eq_refl Hrows) as [σe Hdrop].
  cbn [seq_next]. cbn [seqLength self with_self set_frame]. rewrite Hn.
  apply (seq_collect_loop_fail n (length (scan 1 [] rows)) 1 _ _
           StopIteration GtFinished σe fuel);
    [lia|exact Himgs|exact Hdrop|done|exact Hfuel].
Qed.

(** Two images and a declared length of two, with records for frame 1
    only: one group, and the second image fails. *)
Lemma frame_iterator_runs_out_of_groups_witness :
  seq_collect 1 (seq_next SqCreated (test_state "2" det_1 [1; 2] false))
  = Some (Raise RuntimeError).
Proof.
  apply (frame_iterator_runs_out_of_groups (test_state "2" det_1 [1; 2] false)
           (with_self (set_frame 1 (self (test_state "2" det_1 [1; 2] false)))
                      (test_state "2" det_1 [1; 2] false))
           det_1
           [mkRow 1 [10; 20; 4; 6]%float [12; 23]%float;
            mkRow 1 [1; 2; 3; 4]%float [2.5; 4]%float]
           2 1).
  - vm_compute. reflexivity.
  - vm_compute. reflexivity.
  - vm_compute. reflexivity.
  - simpl. lia.
  - intros [|[|i]] Hi; [vm_compute; eauto|vm_compute; eauto|simpl in Hi; lia].
  - simpl. lia.
Defined.

(** X8. Whatever the files hold, a pass that ends with no error yields no
    more pairs than the manifest declares frames, and the pair of rank [i]
    carries the image of frame [i + 1]. *)
Theorem pairs_within_declared_length σ n fuel pairs :
  Py.int (seqLength (self σ)) = Ok n ->
  seq_collect fuel (seq_next SqCreated σ) = Some (Ok pairs) ->
  (length pairs <= Z.to_nat n)%nat /\
  forall i img group,
    pairs !! i = Some (img, group) ->
    imread (fs σ) (image_path (self σ) (1 + Z.of_nat i)) = Some img.
Proof.
  intros Hn. cbn [seq_next]. cbn [seqLength self with_self set_frame]. rewrite Hn.
  set (σ1 := with_self (set_frame 1 (self σ)) σ).
  assert (Hloop : forall k j gen σ0 fuel0 pairs0,
            same_sequence σ σ0 ->
            seq_collect fuel0 (seq_loop (range j (j + Z.of_nat k)) gen σ0)
            = Some (Ok pairs0) ->
            (length pairs0 <= k)%nat /\
            forall i img group,
              pairs0 !! i = Some (img, group) ->
              imread (fs σ) (image_path (self σ) (j + Z.of_nat i)) = Some img).
  { clear. induction k as [|k IH]; intros j gen σ0 fuel0 pairs0 Hsame.
    - rewrite range_nil by lia. simpl. rewrite seq_collect_stop.
      by intros [= <-].
    - rewrite range_cons by lia. cbn [seq_loop].
      destruct (imread (fs σ0) (image_path (self σ0) j)) as [img|] eqn:Himg.
      + destruct (load_gt_next gen σ0) as [[[l| |e] gen1] σ1] eqn:Hnext.
        * destruct fuel0 as [|fuel0]; [done|]. cbn [seq_collect seq_next].
          replace (j + Z.of_nat (S k))%Z with (j + 1 + Z.of_nat k)%Z by lia.
          destruct (seq_collect fuel0 _) as [[pairs1|e]|] eqn:Hrest; try done.
          intros [= <-].
          pose proof (load_gt_next_same _ _ _ _ _ Hnext) as Hsame1.
          destruct (IH _ _ _ _ _ (same_sequence_trans _ _ _ Hsame Hsame1) Hrest)
            as [Hlen Himgs].
          split; [simpl; lia|].
          intros [|i] img' group; simpl.
          -- intros [= <- _]. rewrite Z.add_0_r.
             by rewrite <-(same_sequence_imread _ _ _ Hsame).
          -- intros Hi. replace (j + Z.of_nat (S i))%Z
               with (j + 1 + Z.of_nat i)%Z by lia.
             by eapply Himgs.
        * by rewrite seq_collect_throw.
        * by rewrite seq_collect_throw.
      + rewrite seq_collect_stop. intros [= <-]. split; [simpl; lia|done]. }
  destruct (Z.le_gt_cases 0 n) as [Hpos|Hneg].
  - replace (n + 1)%Z with (1 + Z.of_nat (Z.to_nat n))%Z by lia.
    apply Hloop. by unfold same_sequence.
  - rewrite range_nil by lia. simpl. rewrite seq_collect_stop.
    intros [= <-]. split; [simpl; lia|done].
Qed.

Lemma pairs_within_declared_length_witness :
  let pairs := [(Image [1], [[10; 20; 4; 6]%float]); (Image [2], [[1; 2; 3; 4]%float])] in
  (length pairs <= Z.to_nat 2)%nat /\
  forall i img group,
    pairs !! i = Some (img, group) ->
    imread (fs (test_state "2" det_12 [1; 2] false))
           (image_path (self (test_state "2" det_12 [1; 2] false)) (1 + Z.of_nat i))
    = Some img.
Proof.
  apply (pairs_within_declared_length (test_state "2" det_12 [1; 2] false) 2 2).
  - vm_compute. reflexivity.
  - vm_compute. reflexivity.
Defined.

(** ** The dataset iterator on any file system *)

Lemma SequenceLoader_init_ok fs h path mid s h' :
  SequenceLoader_init fs h path mid = Ok (s, h') ->
  filepath s = path /\ accumulator s = [] /\ frame s = None /\
  choose_midpoints s = mid /\ midpoints s = length h /\ h' = h ++ [[]].
Proof.
  unfold SequenceLoader_init.
  intros (fid & _ & (m & _ & [= <- <-])%bind_Ok)%bind_Ok. done.
Qed.

Lemma SequenceLoader_init_raise fs h path mid e :
  SequenceLoader_init fs h path mid = Raise e -> e = IOError \/ e = IndexError.
Proof.
  unfold SequenceLoader_init, open_r.
  destruct (files fs !! _); csimpl; [|intros [= <-]; by left].
  intros [H|(m & _ & H)]%bind_Raise; [|done].
  right. by eapply parse_manifest_raise.
Qed.

Lemma load_sequence_raise fs h d j e :
  load_sequence fs h d j = Raise e -> e = IOError \/ e = IndexError.
Proof.
  unfold load_sequence. case_match; [intros [= <-]; by left|].
  apply SequenceLoader_init_raise.
Qed.

(** X9. Whatever the file system holds, the loaders that the dataset
    iterator yields are fresh and independent: the loader of rank [i] was
    built for the path that [glob] gives for the number [i + 1], its
    accumulator has received nothing, its frame counter is unset, it has
    the flag of the data loader, and its [midpoints] list is a new list of
    its own, one per loader, made after every list that existed before. *)
Theorem dataset_loaders_are_fresh fs d h fuel seqs :
  dl_collect fuel fs (dl_next fs DlCreated (d, h)) = Some (Ok seqs) ->
  map midpoints seqs = seq (length h) (length seqs) /\
  forall i s, seqs !! i = Some s ->
    filepath s = Py.join "" (glob fs (sequence_pattern (dl_filepath d) (1 + Z.of_nat i))) /\
    filepath s <> "" /\
    accumulator s = [] /\ frame s = None /\
    choose_midpoints s = dl_choose_midpoints d.
Proof.
  cbn [dl_next fst snd].
  assert (Hloop : forall fuel0 j d0 h0 seqs0,
            sequence d0 = Some j ->
            dl_collect fuel0 fs (dl_loop fs h0 d0) = Some (Ok seqs0) ->
            map midpoints seqs0 = seq (length h0) (length seqs0) /\
            forall i s, seqs0 !! i = Some s ->
              filepath s
              = Py.join "" (glob fs (sequence_pattern (dl_filepath d0) (j + Z.of_nat i))) /\
              filepath s <> "" /\
              accumulator s = [] /\ frame s = None /\
              choose_midpoints s = dl_choose_midpoints d0).
  { clear. induction fuel0 as [|fuel0 IH]; intros j d0 h0 seqs0 Hj;
      unfold dl_loop; rewrite Hj.
    - destruct (load_sequence fs h0 d0 j) as [[s h1]|[]]; simpl; try done.
      by intros [= <-].
    - destruct (load_sequence fs h0 d0 j) as [[s h1]|e] eqn:Hload.
      + cbn [dl_collect dl_next fst snd].
        destruct (dl_collect fuel0 fs _) as [[seqs1|e]|] eqn:Hrest; try done.
        intros [= <-].
        destruct (IH (j + 1)%Z (set_sequence (j + 1) d0) h1 seqs1 eq_refl Hrest)
          as [Hmids Hall].
        unfold load_sequence in Hload.
        destruct (String.length _ =? 0)%nat eqn:Hlen; [done|].
        destruct (SequenceLoader_init_ok _ _ _ _ _ _ Hload)
          as (Hpath & Hacc & Hframe & Hflag & Hmid & ->).
        split.
        * simpl. rewrite Hmid, Hmids, length_app. simpl.
          by replace (length h0 + 1)%nat with (S (length h0)) by lia.
        * intros [|i] s'; simpl.
          -- intros [= <-]. rewrite Z.add_0_r. split_and!; try done.
             rewrite Hpath. intros Hempty. by rewrite Hempty in Hlen.
          -- intros Hi. replace (j + Z.of_nat (S i))%Z
               with (j + 1 + Z.of_nat i)%Z by lia.
             by apply (Hall i s').
      + destruct e; simpl; try done. by intros [= <-]. }
  apply (Hloop fuel 1%Z (set_sequence 1 d) h seqs eq_refl).
Qed.

Lemma dataset_loaders_are_fresh_witness :
  map midpoints loaders_124 = seq 1 (length loaders_124) /\
  forall i s, loaders_124 !! i = Some s ->
    filepath s = Py.join "" (glob fs_124 (sequence_pattern "./data/" (1 + Z.of_nat i))) /\
    filepath s <> "" /\
    accumulator s = [] /\ frame s = None /\
    choose_midpoints s = true.
Proof.
  apply (dataset_loaders_are_fresh fs_124 (mkLoader "./data/" true None) [[]]
           2 loaders_124).
  vm_compute. reflexivity.
Defined.

(** X10. The handler of the dataset iterator takes [IOError] and nothing
    else. An exception that reaches the caller of the dataset iterator is
    never [IOError]; it is an exception that [load_sequence] raised for a
    sequence number of the walk, every number before it having given a
    loader, and it is passed on as it is. *)
Theorem dataset_iteration_never_raises_io_error fs d h fuel e :
  dl_collect fuel fs (dl_next fs DlCreated (d, h)) = Some (Raise e) ->
  e <> IOError /\
  exists (k : nat) h',
    load_sequence fs h' d (1 + Z.of_nat k) = Raise e /\
    forall i, (i < k)%nat ->
      exists hi, is_Ok (load_sequence fs hi d (1 + Z.of_nat i)).
Proof.
  cbn [dl_next fst snd].
  assert (Hsame : forall j hj d0,
            dl_filepath d0 = dl_filepath d ->
            dl_choose_midpoints d0 = dl_choose_midpoints d ->
            load_sequence fs hj d0 j = load_sequence fs hj d j).
  { intros j hj d0 Hpath Hflag. unfold load_sequence. by rewrite Hpath, Hflag. }
  assert (Hloop : forall fuel0 (n : nat) d0 h0,
            sequence d0 = Some (1 + Z.of_nat n)%Z ->
            dl_filepath d0 = dl_filepath d ->
            dl_choose_midpoints d0 = dl_choose_midpoints d ->
            (forall i, (i < n)%nat ->
               exists hi, is_Ok (load_sequence fs hi d (1 + Z.of_nat i))) ->
            dl_collect fuel0 fs (dl_loop fs h0 d0) = Some (Raise e) ->
            e <> IOError /\
            exists (k : nat) h',
              load_sequence fs h' d (1 + Z.of_nat k) = Raise e /\
              forall i, (i < k)%nat ->
                exists hi, is_Ok (load_sequence fs hi d (1 + Z.of_nat i))).
  { induction fuel0 as [|fuel0 IH]; intros n d0 h0 Hj Hpath Hflag Hbefore;
      unfold dl_loop; rewrite Hj;
      destruct (load_sequence fs h0 d0 (1 + Z.of_nat n)) as [[s h1]|e0] eqn:Hload.
    - done.
    - rewrite Hsame in Hload by done.
      destruct e0; simpl; try done; intros [= <-]; (split; [done|]);
        exists n, h0; by split.
    - cbn [dl_collect dl_next fst snd].
      destruct (dl_collect fuel0 fs _) as [[seqs1|e1]|] eqn:Hrest; try done.
      intros [= <-]. rewrite Hsame in Hload by done.
      apply (IH (S n) (set_sequence (1 + Z.of_nat n + 1) d0) h1); try done.
      + simpl. f_equal. lia.
      + intros i Hi. destruct (decide (i = n)) as [->|Hne].
        * exists h0. rewrite Hload. by eexists.
        * apply Hbefore. lia.
    - rewrite Hsame in Hload by done.
      destruct e0; simpl; try done; intros [= <-]; (split; [done|]);
        exists n, h0; by split. }
  apply (Hloop fuel 0%nat (set_sequence 1 d) h); try done.
  intros i Hi. lia.
Qed.

Lemma dataset_iteration_never_raises_io_error_witness :
  IndexError <> IOError /\
  exists (k : nat) h',
    load_sequence fs_short_manifest h' (mkLoader "./data/" false None) (1 + Z.of_nat k)
    = Raise IndexError /\
    forall i, (i < k)%nat ->
      exists hi, is_Ok (load_sequence fs_short_manifest hi
                          (mkLoader "./data/" false None) (1 + Z.of_nat i)).
Proof.
  apply (dataset_iteration_never_raises_io_error fs_short_manifest
           (mkLoader "./data/" false None) [] 1 IndexError).
  vm_compute. reflexivity.
Defined.

(** ** The manifest *)

Lemma lines_unlines ls rest :
  Forall (all_chars (fun c => c <> Py.LF)) ls ->
  Py.lines (unlines ls +:+ rest)
  = map (fun l => l +:+ String Py.LF "") ls ++ Py.lines rest.
Proof.
  induction 1 as [|l ls Hl _ IH]; [done|].
  cbn [unlines]. rewrite string_app_assoc.
  change (String Py.LF (unlines ls) +:+ rest) with (String Py.LF (unlines ls +:+ rest)).
  rewrite lines_app by done. by rewrite IH.
Qed.

Lemma lines_one_line s :
  s <> "" -> all_chars (fun c => c <> Py.LF) s -> Py.lines s = [s].
Proof.
  induction s as [|c s IH]; [done|]. intros _ [Hc Hs]. simpl.
  rewrite eqb_neq by done. destruct s as [|d s]; [done|].
  by rewrite IH.
Qed.

Lemma drop_last_snoc v c : Py.drop_last 1 (v +:+ String c "") = v.
Proof.
  unfold Py.drop_last. rewrite string_app_length. simpl.
  replace (String.length v + 1 - 1)%nat with (String.length v) by lia.
  apply prefix_app.
Qed.

(** The field of a line [key=rest]: what follows the sign, less its last
    character. *)
Lemma manifest_field_line info i k w :
  info !! i = Some (manifest_line k w) ->
  all_chars (fun c => c <> "="%char) k ->
  all_chars (fun c => c <> "="%char) w ->
  manifest_field info i = Ok (Py.drop_last 1 w).
Proof.
  intros Hi Hk Hw. unfold manifest_field, Py.index, manifest_line in *.
  rewrite Hi. csimpl. rewrite split_app by done.
  by rewrite split_no_sep by done.
Qed.

Lemma manifest_line_ended k v :
  manifest_line k v +:+ String Py.LF "" = manifest_line k (v +:+ String Py.LF "").
Proof. unfold manifest_line. by rewrite string_app_assoc. Qed.

Lemma manifest_word_line k v :
  manifest_word k -> manifest_word v ->
  all_chars (fun c => c <> Py.LF) (manifest_line k v).
Proof.
  unfold manifest_word, manifest_line. intros Hk Hv.
  apply all_chars_app. split.
  - eapply all_chars_impl; [|exact Hk]. simpl. tauto.
  - split; [done|]. eapply all_chars_impl; [|exact Hv]. simpl. tauto.
Qed.

Lemma manifest_word_sign w : manifest_word w -> all_chars (fun c => c <> "="%char) w.
Proof. apply all_chars_impl. tauto. Qed.

Lemma manifest_word_ended v :
  manifest_word v -> all_chars (fun c => c <> "="%char) (v +:+ String Py.LF "").
Proof.
  intros Hv. apply all_chars_app. split; [by apply manifest_word_sign|done].
Qed.

(** X11. Reading back a manifest. A file made of a header line and seven
    lines [key=value], each ended by a line feed, where no key and no value
    holds an [=] or a line feed, is parsed to its seven values, whatever
    the keys are and whatever follows the eighth line. *)
Theorem parse_manifest_reads_values header keys m rest :
  all_chars (fun c => c <> Py.LF) header ->
  length keys = 7%nat ->
  Forall manifest_word keys ->
  Forall manifest_word (manifest_values m) ->
  parse_manifest (manifest_text header keys m +:+ rest) = Ok m.
Proof.
  intros Hheader Hlen Hkeys Hvalues.
  destruct keys as [|k1 [|k2 [|k3 [|k4 [|k5 [|k6 [|k7 [|]]]]]]]]; try done.
  destruct m as [v1 v2 v3 v4 v5 v6 v7]. unfold manifest_values in Hvalues.
  cbn [m_name m_imDir m_frameRate m_seqLength m_imWidth m_imHeight m_imExt]
    in Hvalues.
  repeat (match goal with
          | H : Forall _ (_ :: _) |- _ => inversion_clear H
          end).
  unfold parse_manifest, manifest_text. rewrite lines_unlines.
  - cbn [zip_with manifest_values map app
           m_name m_imDir m_frameRate m_seqLength m_imWidth m_imHeight m_imExt].
    rewrite !manifest_line_ended.
    match goal with |- context [manifest_field ?l 1] => set (info := l) end.
    rewrite (manifest_field_line info 1 k1 (v1 +:+ String Py.LF "") eq_refl),
      (manifest_field_line info 2 k2 (v2 +:+ String Py.LF "") eq_refl),
      (manifest_field_line info 3 k3 (v3 +:+ String Py.LF "") eq_refl),
      (manifest_field_line info 4 k4 (v4 +:+ String Py.LF "") eq_refl),
      (manifest_field_line info 5 k5 (v5 +:+ String Py.LF "") eq_refl),
      (manifest_field_line info 6 k6 (v6 +:+ String Py.LF "") eq_refl),
      (manifest_field_line info 7 k7 (v7 +:+ String Py.LF "") eq_refl)
      by auto using manifest_word_sign, manifest_word_ended.
    csimpl. by rewrite !drop_last_snoc.
  - cbn [zip_with manifest_values
           m_name m_imDir m_frameRate m_seqLength m_imWidth m_imHeight m_imExt].
    repeat constructor; auto using manifest_word_line.
Qed.

Lemma parse_manifest_reads_values_witness :
  parse_manifest (manifest_text "[Sequence]" manifest_keys manifest_5 +:+ "") = Ok manifest_5.
Proof.
  apply (parse_manifest_reads_values "[Sequence]" manifest_keys manifest_5 "").
  - by repeat split.
  - reflexivity.
  - repeat constructor; vm_compute; repeat split; discriminate.
  - repeat constructor; vm_compute; repeat split; discriminate.
Defined.

Lemma manifest_line_not_empty k v : manifest_line k v <> "".
Proof. unfold manifest_line. by destruct k. Qed.

(** X12. The same manifest with no line feed after its last line loses
    the last character of its last value: [[:-1]] cuts the extension
    [.jpg] to [.jp]. The six values before it are read in full. *)
Theorem parse_manifest_cuts_unterminated_last_line header keys m :
  all_chars (fun c => c <> Py.LF) header ->
  length keys = 7%nat ->
  Forall manifest_word keys ->
  Forall manifest_word (manifest_values m) ->
  parse_manifest (manifest_text_cut header keys m)
  = Ok (mkManifest (m_name m) (m_imDir m) (m_frameRate m) (m_seqLength m)
                   (m_imWidth m) (m_imHeight m) (Py.drop_last 1 (m_imExt m))).
Proof.
  intros Hheader Hlen Hkeys Hvalues.
  destruct keys as [|k1 [|k2 [|k3 [|k4 [|k5 [|k6 [|k7 [|]]]]]]]]; try done.
  destruct m as [v1 v2 v3 v4 v5 v6 v7]. unfold manifest_values in Hvalues.
  cbn [m_name m_imDir m_frameRate m_seqLength m_imWidth m_imHeight m_imExt]
    in Hvalues.
  repeat (match goal with
          | H : Forall _ (_ :: _) |- _ => inversion_clear H
          end).
  unfold parse_manifest, manifest_text_cut. rewrite lines_unlines.
  - cbn [zip_with manifest_values map app take lookup list_lookup default
           m_name m_imDir m_frameRate m_seqLength m_imWidth m_imHeight m_imExt].
    rewrite lines_one_line
      by auto using manifest_line_not_empty, manifest_word_line.
    rewrite !manifest_line_ended.
    match goal with |- context [manifest_field ?l 1] => set (info := l) end.
    rewrite (manifest_field_line info 1 k1 (v1 +:+ String Py.LF "") eq_refl),
      (manifest_field_line info 2 k2 (v2 +:+ String Py.LF "") eq_refl),
      (manifest_field_line info 3 k3 (v3 +:+ String Py.LF "") eq_refl),
      (manifest_field_line info 4 k4 (v4 +:+ String Py.LF "") eq_refl),
      (manifest_field_line info 5 k5 (v5 +:+ String Py.LF "") eq_refl),
      (manifest_field_line info 6 k6 (v6 +:+ String Py.LF "") eq_refl),
      (manifest_field_line info 7 k7 v7 eq_refl)
      by auto using manifest_word_sign, manifest_word_ended.
    csimpl. by rewrite !drop_last_snoc.
  - cbn [zip_with manifest_values take
           m_name m_imDir m_frameRate m_seqLength m_imWidth m_imHeight m_imExt].
    repeat constructor; auto using manifest_word_line.
Qed.

Lemma parse_manifest_cuts_unterminated_last_line_witness :
  parse_manifest (manifest_text_cut "[Sequence]" manifest_keys manifest_5)
  = Ok (mkManifest "MOT16-01" "img1" "30" "5" "1920" "1080" ".jp").
Proof.
  apply (parse_manifest_cuts_unterminated_last_line "[Sequence]" manifest_keys manifest_5).
  - by repeat split.
  - reflexivity.
  - repeat constructor; vm_compute; repeat split; discriminate.
  - repeat constructor; vm_compute; repeat split; discriminate.
Defined.

Lemma manifest_field_ok info i v : manifest_field info i = Ok v -> (i < length info)%nat.
Proof.
  unfold manifest_field, Py.index. destruct (info !! i) eqn:Hi; [|done].
  intros _. by eapply lookup_lt_Some.
Qed.

(** X13. A manifest of fewer than eight lines never gives a loader:
    building the loader raises [IndexError], whatever the lines hold, and
    no list is made. *)
Theorem short_manifest_raises_index_error disk h path mid raw :
  files disk !! (path +:+ "/seqinfo.ini") = Some raw ->
  (length (Py.lines (Py.universal_newlines raw)) < 8)%nat ->
  SequenceLoader_init disk h path mid = Raise IndexError.
Proof.
  intros Hraw Hshort. unfold SequenceLoader_init, open_r. rewrite Hraw. csimpl.
  destruct (parse_manifest (Py.universal_newlines raw)) as [m|e] eqn:Hparse; csimpl.
  - exfalso. unfold parse_manifest in Hparse.
    repeat (apply bind_Ok in Hparse as (? & ? & Hparse)).
    match goal with
    | H : manifest_field _ 7 = Ok _ |- _ => apply manifest_field_ok in H; lia
    end.
  - by rewrite (parse_manifest_raise _ _ Hparse).
Qed.

Lemma short_manifest_raises_index_error_witness :
  SequenceLoader_init fs_short_manifest [] "./data/test/MOT16-01" false
  = Raise IndexError.
Proof.
  apply (short_manifest_raises_index_error fs_short_manifest []
           "./data/test/MOT16-01" false "[Sequence]
name=MOT16-01
").
  - vm_compute. reflexivity.
  - vm_compute. lia.
Defined.

(** ** The normalizer: what it leaves alone, and how it fails *)

(** X14. A run of [fix_gt] that succeeds writes the derived file and
    nothing else: the raw file and every other file keep their content,
    and the directory entries and the images are as before. *)
Theorem fix_gt_writes_derived_file_only disk filename disk1 :
  fix_gt disk filename = Ok disk1 ->
  is_Some (files disk1 !! corrected_name filename) /\
  files disk1 !! filename = files disk !! filename /\
  (forall p, p <> corrected_name filename -> files disk1 !! p = files disk !! p) /\
  entries disk1 = entries disk /\
  images disk1 = images disk.
Proof.
  intros Hrun.
  destruct (fix_gt_inv _ _ _ Hrun) as (raw & ps & _ & _ & _ & _ & _ & _ & ->).
  simpl. split_and!; try done.
  - rewrite lookup_insert_eq. eauto.
  - apply lookup_insert_ne, corrected_name_fresh.
  - intros p Hp. by apply lookup_insert_ne.
Qed.

Lemma fix_gt_writes_derived_file_only_witness :
  exists disk1,
    fix_gt fs_3121 "seq/gt/gt.txt" = Ok disk1 /\
    is_Some (files disk1 !! corrected_name "seq/gt/gt.txt") /\
    files disk1 !! "seq/gt/gt.txt" = files fs_3121 !! "seq/gt/gt.txt" /\
    (forall p, p <> corrected_name "seq/gt/gt.txt" ->
               files disk1 !! p = files fs_3121 !! p) /\
    entries disk1 = entries fs_3121 /\
    images disk1 = images fs_3121.
Proof.
  eexists. split; [vm_compute; reflexivity|].
  apply (fix_gt_writes_derived_file_only fs_3121 "seq/gt/gt.txt").
  vm_compute; reflexivity.
Defined.

Lemma sorted_keys_zip {A} (keys : list Z) (l : list A) :
  length keys = length l ->
  StronglySorted Z.le keys -> StronglySorted key_le (zip keys l).
Proof.
  intros Hlen Hs. revert l Hlen.
  induction Hs as [|k keys _ IH Hk]; intros [|x l] Hlen; simpl;
    try discriminate; try constructor.
  - apply IH. by injection Hlen.
  - apply Forall_forall. intros [k' x'] Hin.
    apply elem_of_zip_l in Hin. simpl in Hin.
    unfold key_le. simpl. by eapply Forall_forall in Hk.
Qed.

(** X15. On a raw file that is sorted already, [fix_gt] changes nothing
    in the order: the derived file, read back, holds the rows of the raw
    file in the order of the raw file. *)
Theorem fix_gt_keeps_sorted_input disk filename raw keys :
  files disk !! filename = Some raw ->
  quote_free raw = true ->
  rmap row_key (csv_reader (Py.universal_newlines raw)) = Ok keys ->
  StronglySorted Z.le keys ->
  exists out,
    fix_gt disk filename = Ok (open_w disk (corrected_name filename) out) /\
    csv_reader (Py.universal_newlines out) = csv_reader (Py.universal_newlines raw).
Proof.
  intros Hfile Hq Hkeys Hsorted.
  set (rows := csv_reader (Py.universal_newlines raw)) in *.
  destruct (rmap_keyed row_key _ _ Hkeys) as [Hlen Hkeyed].
  pose proof (sorted_fixed row_key (zip keys rows) Hkeyed
                (sorted_keys_zip _ _ Hlen Hsorted)) as Hfixed.
  rewrite snd_zip in Hfixed by lia.
  exists (csv_writerows rows). split.
  - unfold fix_gt, open_r. rewrite Hfile. csimpl. fold rows. by rewrite Hfixed.
  - apply csv_roundtrip.
    replace rows with (zip keys rows).*2 by (apply snd_zip; lia).
    eapply sorted_rows_plain; [exact Hq|exact Hkeyed|].
    by rewrite snd_zip by lia.
Qed.

Lemma fix_gt_keeps_sorted_input_witness :
  exists out,
    fix_gt (mkFS {[ "seq/gt/gt.txt" := gt_sorted ]} [] ∅) "seq/gt/gt.txt"
    = Ok (open_w (mkFS {[ "seq/gt/gt.txt" := gt_sorted ]} [] ∅)
                 (corrected_name "seq/gt/gt.txt") out) /\
    csv_reader (Py.universal_newlines out)
    = csv_reader (Py.universal_newlines gt_sorted).
Proof.
  apply (fix_gt_keeps_sorted_input (mkFS {[ "seq/gt/gt.txt" := gt_sorted ]} [] ∅)
           "seq/gt/gt.txt" gt_sorted [1; 1; 2]).
  - vm_compute. reflexivity.
  - vm_compute. reflexivity.
  - vm_compute. reflexivity.
  - repeat constructor; lia.
Defined.

Lemma rmap_first_failure {A B} (f : A -> result B) pre x post ys e :
  rmap f pre = Ok ys -> f x = Raise e -> rmap f (pre ++ x :: post) = Raise e.
Proof.
  revert ys. induction pre as [|y pre IH]; intros ys; simpl.
  - intros _ ->. done.
  - intros (z & -> & (zs & Hzs & _)%bind_Ok)%bind_Ok Hx. csimpl.
    by rewrite (IH _ Hzs Hx).
Qed.

(** X16. On a raw file with no quote character, [fix_gt] fails with the
    error of the first row that has no integer in front, and then writes
    nothing: the rows before it are no help. An empty line is such a row:
    it raises [IndexError]. *)
Theorem fix_gt_fails_on_first_bad_row disk filename raw pre row post keys e :
  files disk !! filename = Some raw ->
  quote_free raw = true ->
  csv_reader (Py.universal_newlines raw) = pre ++ row :: post ->
  rmap row_key pre = Ok keys ->
  row_key row = Raise e ->
  fix_gt disk filename = Raise e /\
  (row = [] -> e = IndexError).
Proof.
  intros Hfile _ Hrows Hpre Hrow. split.
  - unfold fix_gt, open_r. rewrite Hfile. csimpl. rewrite Hrows.
    unfold sorted. by rewrite (rmap_first_failure _ _ _ _ _ _ Hpre Hrow).
  - intros ->. by injection Hrow.
Qed.

Lemma fix_gt_fails_on_first_bad_row_witness :
  fix_gt (mkFS {[ "seq/gt/gt.txt" := gt_blank ]} [] ∅) "seq/gt/gt.txt"
  = Raise IndexError /\
  ([] = @nil string -> IndexError = IndexError).
Proof.
  apply (fix_gt_fails_on_first_bad_row (mkFS {[ "seq/gt/gt.txt" := gt_blank ]} [] ∅)
           "seq/gt/gt.txt" gt_blank
           [["1"; "1"; "10"; "20"; "4"; "6"]] []
           [["2"; "1"; "1"; "2"; "3"; "4"]] [1] IndexError);
    vm_compute; reflexivity.
Defined.

Lemma gt_corrected_path path :
  corrected_name (path +:+ "/gt/gt.txt") = path +:+ "/gt/gt_corrected.txt".
Proof.
  change (path +:+ "/gt/gt.txt") with (path +:+ "/gt/gt" +:+ ".txt").
  rewrite <-string_app_assoc, corrected_name_txt. by rewrite string_app_assoc.
Qed.

(** X17. For a training sequence the grouper reads the file that [fix_gt]
    has just written: when the raw ground truth is readable, has no quote
    character, and each of its rows starts with an integer, opening the
    annotations succeeds, leaves the normalized file beside the raw one,
    and the text handed to the loop has its rows in non-decreasing order
    of frame index. *)
Theorem training_sequence_reads_sorted_rows σ raw keys :
  Py.contains "train" (filepath (self σ)) = true ->
  files (fs σ) !! (filepath (self σ) +:+ "/gt/gt.txt") = Some raw ->
  quote_free raw = true ->
  rmap row_key (csv_reader (Py.universal_newlines raw)) = Ok keys ->
  exists out text ks,
    gt_open σ
    = (Ok text,
       with_fs (open_w (fs σ) (filepath (self σ) +:+ "/gt/gt_corrected.txt") out) σ) /\
    text = Py.universal_newlines out /\
    csv_reader text ≡ₚ csv_reader (Py.universal_newlines raw) /\
    rmap row_key (csv_reader text) = Ok ks /\
    StronglySorted Z.le ks.
Proof.
  intros Htrain Hfile Hq Hkeys.
  destruct (sorted_spec row_key _ _ Hkeys) as (ps & Hps & Hk & Hs & Hperm & _).
  exists (csv_writerows ps.*2), (Py.universal_newlines (csv_writerows ps.*2)), ps.*1.
  assert (Hback : csv_reader (Py.universal_newlines (csv_writerows ps.*2)) = ps.*2).
  { apply csv_roundtrip. by eapply sorted_rows_plain. }
  split_and!; try done.
  - unfold gt_open. rewrite Htrain.
    unfold fix_gt at 1, open_r at 1. rewrite Hfile. csimpl. rewrite Hps. csimpl.
    rewrite gt_corrected_path. unfold open_r. simpl.
    by rewrite lookup_insert_eq.
  - by rewrite Hback.
  - rewrite Hback. by apply keyed_rmap.
  - by apply sorted_keys_sorted.
Qed.

Lemma training_sequence_reads_sorted_rows_witness :
  exists out text ks,
    gt_open (train_state gt_3121)
    = (Ok text,
       with_fs (open_w (fs (train_state gt_3121))
                       (train_dir +:+ "/gt/gt_corrected.txt") out)
               (train_state gt_3121)) /\
    text = Py.universal_newlines out /\
    csv_reader text ≡ₚ csv_reader (Py.universal_newlines gt_3121) /\
    rmap row_key (csv_reader text) = Ok ks /\
    StronglySorted Z.le ks.
Proof.
  apply (training_sequence_reads_sorted_rows (train_state gt_3121) gt_3121 [3; 1; 2; 1]);
    vm_compute; reflexivity.
Defined.

(** ** [SequenceLoader.__next__] *)

(** X18. The generator of [SequenceLoader.__next__] never sets the frame
    counter. On a loader whose counter is not set, as [__init__] leaves
    it, with a first image and an annotation source whose first line
    starts with an integer, the first pull raises [AttributeError]: the
    line is compared with a counter that is not there. The source has
    been opened and the two buffers made by then. *)
Theorem next_method_needs_frame_counter σ n img text σ1 line rest k :
  frame (self σ) = None ->
  Py.int (seqLength (self σ)) = Ok n -> (1 <= n)%Z ->
  imread (fs σ) (image_path (self σ) 1) = Some img ->
  gt_open σ = (Ok text, σ1) ->
  Py.lines text = line :: rest ->
  row_key (Py.split "," line) = Ok k ->
  SequenceLoader_next SqCreated σ
  = (Throw AttributeError, SqFinished, with_hp (hp σ ++ [[]; []]) σ1).
Proof.
  intros Hframe Hn Hpos Himg Hopen Hlines Hkey.
  destruct (gt_open_frame _ _ _ Hopen) as (Hself & _ & _).
  unfold SequenceLoader_next. rewrite Hn, range_cons by lia.
  unfold seq_loop. rewrite Himg, (load_gt_next_created _ _ _ Hopen), Hlines.
  cbn [load_gt_loop]. rewrite Hkey. cbn [self with_hp].
  by rewrite Hself, Hframe.
Qed.

Lemma next_method_needs_frame_counter_witness :
  SequenceLoader_next SqCreated (test_state "3" det_12 [1; 2; 3] false)
  = (Throw AttributeError, SqFinished,
     with_hp (hp (test_state "3" det_12 [1; 2; 3] false) ++ [[]; []])
             (test_state "3" det_12 [1; 2; 3] false)).
Proof.
  apply (next_method_needs_frame_counter (test_state "3" det_12 [1; 2; 3] false)
           3 (Image [1]) (Py.universal_newlines det_12) _
           "1,-1,10,20,4,6
" ["2,-1,1,2,3,4
"] 1); try (vm_compute; reflexivity).
  lia.
Defined.

(** ** [load_sequence]: the pattern, and more than one match *)

Lemma single_digit_string (u : Decimal.uint) :
  String.length (NilZero.string_of_uint u) = 1%nat ->
  (N.to_nat (Pos.of_uint u) <= 9)%nat.
Proof.
  destruct u as [|u|u|u|u|u|u|u|u|u|u]; [intros _; vm_compute; lia|..];
    destruct u; simpl; try discriminate; intros _; vm_compute; lia.
Qed.

Lemma str_length_two (n : Z) : (10 <= n)%Z -> String.length (Py.str n) <> 1%nat.
Proof.
  intros Hn Hlen. destruct n as [|p|p]; try lia.
  unfold Py.str in Hlen. simpl in Hlen.
  apply single_digit_string in Hlen.
  rewrite DecimalPos.Unsigned.of_to in Hlen. lia.
Qed.

(** X19. The pattern that [load_sequence] searches: the root, a star for
    one directory level, and [MOT16-] followed by the sequence number,
    written with two digits (a leading zero) for 0 to 9 and as its plain
    decimal from 10 on. *)
Theorem sequence_pattern_pads_one_digit root n :
  ((0 <= n <= 9)%Z ->
   sequence_pattern root n = root +:+ "*/MOT16-0" +:+ Py.str n) /\
  ((10 <= n)%Z ->
   sequence_pattern root n = root +:+ "*/MOT16-" +:+ Py.str n).
Proof.
  unfold sequence_pattern. split.
  - intros Hn.
    replace n with (Z.of_nat (Z.to_nat n)) by lia.
    assert (Hk : (Z.to_nat n < 10)%nat) by lia.
    revert Hk. generalize (Z.to_nat n). intros k Hk.
    do 10 (destruct k as [|k]; [done|]). lia.
  - intros Hn%str_length_two.
    by destruct (Nat.eqb_spec (String.length (Py.str n)) 1).
Qed.

Lemma sequence_pattern_pads_one_digit_witness :
  sequence_pattern "./data/" 7 = "./data/*/MOT16-07" /\
  sequence_pattern "./data/" 12 = "./data/*/MOT16-12".
Proof.
  split.
  - apply (proj1 (sequence_pattern_pads_one_digit "./data/" 7)). lia.
  - apply (proj2 (sequence_pattern_pads_one_digit "./data/" 12)). lia.
Defined.

(** X20. When more than one directory matches a sequence number, the
    matches are joined into one string, which is taken as the path of the
    sequence. With no manifest at that joined path, the dataset iteration
    ends there as if no sequence were left: no loader is made for any of
    the matches, and nothing is raised. *)
Theorem several_matches_end_iteration disk d h j dir1 dir2 dirs :
  sequence d = Some j ->
  glob disk (sequence_pattern (dl_filepath d) j) = dir1 :: dir2 :: dirs ->
  files disk !! (Py.join "" (dir1 :: dir2 :: dirs) +:+ "/seqinfo.ini") = None ->
  load_sequence disk h d j = Raise IOError /\
  dl_next disk DlAtYield (d, h) = (StopIteration, DlFinished, (d, h)).
Proof.
  intros Hj Hglob Hnone.
  assert (Hload : load_sequence disk h d j = Raise IOError).
  { unfold load_sequence. rewrite Hglob.
    destruct (String.length _ =? 0)%nat; [done|].
    unfold SequenceLoader_init, open_r. by rewrite Hnone. }
  split; [done|].
  cbn [dl_next fst snd]. unfold dl_loop. by rewrite Hj, Hload.
Qed.

Lemma several_matches_end_iteration_witness :
  load_sequence fs_two_matches [[]] (mkLoader "./data/" true (Some 2)) 2
  = Raise IOError /\
  dl_next fs_two_matches DlAtYield (mkLoader "./data/" true (Some 2), [[]])
  = (StopIteration, DlFinished, (mkLoader "./data/" true (Some 2), [[]])).
Proof.
  apply (several_matches_end_iteration fs_two_matches (mkLoader "./data/" true (Some 2))
           [[]] 2 "./data/test/MOT16-02" "./data/train/MOT16-02" []);
    vm_compute; reflexivity.
Defined.
